(** * Hype: a shallow embedding of the conferencing client

    The development follows the TypeScript sources:
    - [Base64]   : [encode] / [decode] of src/services/liveClient.ts, over the
                   browser's [btoa] / [atob] (WHATWG forgiving-base64);
    - [Resample] : [downsample] of src/services/liveClient.ts, over IEEE-754
                   binary64 numbers (Rocq's primitive floats);
    - [Live]     : the [LiveClient] connection state machine;
    - [Client]   : the React component of src/App.tsx with its Firebase
                   roster store and its local media streams. *)

From Stdlib Require Import ZArith List Bool String Ascii Lia Floats Uint63.
Import ListNotations.

(* ------------------------------------------------------------------ *)
(** ** Base64 helpers of the AI audio bridge *)

Module Base64.
Open Scope Z_scope.

(** JS strings are sequences of UTF-16 code units, written here as [Z]. *)

Definition code_of (c : ascii) : Z := Z.of_nat (nat_of_ascii c).

(** The base64 alphabet of RFC 4648, section 4. *)
Definition alphabet : list Z :=
  map code_of (list_ascii_of_string
    "ABCDEFGHIJKLMNOPQRSTUVWXYZabcdefghijklmnopqrstuvwxyz0123456789+/").

Definition pad : Z := 61. (* '=' *)

Definition is_ascii_whitespace (c : Z) : bool :=
  (c =? 9) || (c =? 10) || (c =? 12) || (c =? 13) || (c =? 32).

Definition sextet_char (s : Z) : Z := nth (Z.to_nat s) alphabet 0.

Fixpoint index_from (c : Z) (l : list Z) (i : Z) : option Z :=
  match l with
  | [] => None
  | x :: l' => if x =? c then Some i else index_from c l' (i + 1)
  end.

Definition char_sextet (c : Z) : option Z := index_from c alphabet 0.

(** The four sextets of a 24-bit group. *)
Definition s1 (a : Z) : Z := Z.shiftr a 2.
Definition s2 (a b : Z) : Z := Z.lor (Z.shiftl (Z.land a 3) 4) (Z.shiftr b 4).
Definition s3 (b c : Z) : Z := Z.lor (Z.shiftl (Z.land b 15) 2) (Z.shiftr c 6).
Definition s4 (c : Z) : Z := Z.land c 63.

(** forgiving-base64 encode: groups of three bytes, the last group padded. *)
Fixpoint b64_encode (bs : list Z) : list Z :=
  match bs with
  | a :: b :: c :: rest =>
      [sextet_char (s1 a); sextet_char (s2 a b); sextet_char (s3 b c);
       sextet_char (s4 c)] ++ b64_encode rest
  | [a; b] =>
      [sextet_char (s1 a); sextet_char (s2 a b);
       sextet_char (Z.shiftl (Z.land b 15) 2); pad]
  | [a] => [sextet_char (s1 a); sextet_char (Z.shiftl (Z.land a 3) 4); pad; pad]
  | [] => []
  end.

(** [btoa]: throws InvalidCharacterError on a code unit above 0xFF
    ([None]); otherwise encodes the code units as bytes. *)
Definition btoa (s : list Z) : option (list Z) :=
  if forallb (fun c => (0 <=? c) && (c <=? 255)) s then Some (b64_encode s)
  else None.

(** forgiving-base64 decode, step 2: one or two trailing '=' are removed
    when the length is a multiple of four. *)
Definition strip_padding (d : list Z) : list Z :=
  if (Nat.modulo (List.length d) 4 =? 0)%nat then
    match rev d with
    | p1 :: p2 :: r =>
        if p1 =? pad then (if p2 =? pad then rev r else rev (p2 :: r)) else d
    | [p1] => if p1 =? pad then [] else d
    | [] => d
    end
  else d.

Fixpoint map_option {A B} (f : A -> option B) (l : list A) : option (list B) :=
  match l with
  | [] => Some []
  | x :: l' =>
      match f x, map_option f l' with
      | Some y, Some ys => Some (y :: ys)
      | _, _ => None
      end
  end.

(** The bit buffer of the decoder, read 24 bits at a time; a trailing group of
    12 (resp. 18) bits loses its last 4 (resp. 2) bits. *)
Fixpoint dec_sextets (s : list Z) : list Z :=
  match s with
  | w :: x :: y :: z :: rest =>
      [Z.lor (Z.shiftl w 2) (Z.shiftr x 4);
       Z.lor (Z.shiftl (Z.land x 15) 4) (Z.shiftr y 2);
       Z.lor (Z.shiftl (Z.land y 3) 6) z] ++ dec_sextets rest
  | [w; x; y] =>
      [Z.lor (Z.shiftl w 2) (Z.shiftr x 4);
       Z.lor (Z.shiftl (Z.land x 15) 4) (Z.shiftr y 2)]
  | [w; x] => [Z.lor (Z.shiftl w 2) (Z.shiftr x 4)]
  | _ => []
  end.

(** [atob]: throws InvalidCharacterError ([None]) on failure. *)
Definition atob (s : list Z) : option (list Z) :=
  let d := strip_padding (filter (fun c => negb (is_ascii_whitespace c)) s) in
  if (Nat.modulo (List.length d) 4 =? 1)%nat then None
  else match map_option char_sextet d with
       | Some sx => Some (dec_sextets sx)
       | None => None
       end.

(** [encode(bytes)]: [String.fromCharCode] of each byte, then [btoa]. *)
Definition encode (bytes : list Z) : option (list Z) :=
  btoa (map (fun b => b mod 65536) bytes).

(** [decode(base64)]: [atob], then [charCodeAt] of each code unit stored into
    a [Uint8Array] (which keeps the value modulo 256). *)
Definition decode (base64 : list Z) : option (list Z) :=
  match atob base64 with
  | Some binaryString => Some (map (fun c => c mod 256) binaryString)
  | None => None
  end.

(** Auxiliary views of the encoder used in the proofs: the sextets of the
    encoding and its padding. *)
Fixpoint sextets (bs : list Z) : list Z :=
  match bs with
  | a :: b :: c :: rest => [s1 a; s2 a b; s3 b c; s4 c] ++ sextets rest
  | [a; b] => [s1 a; s2 a b; Z.shiftl (Z.land b 15) 2]
  | [a] => [s1 a; Z.shiftl (Z.land a 3) 4]
  | [] => []
  end.

Fixpoint pads (bs : list Z) : list Z :=
  match bs with
  | _ :: _ :: _ :: rest => pads rest
  | [_; _] => [pad]
  | [_] => [pad; pad]
  | [] => []
  end.

Definition is_byte (x : Z) : Prop := 0 <= x < 256.

Definition range (n : nat) : list Z := map Z.of_nat (seq 0 n).

End Base64.


(* ------------------------------------------------------------------ *)
(** ** [downsample] of the AI audio bridge *)

Module Resample.
Open Scope Z_scope.

(** JS numbers are IEEE-754 binary64 values: Rocq's primitive [float].
    A [Float32Array] holds binary32 values; the samples copied by
    [downsample] come from another [Float32Array], so storing them is exact
    and they are kept as [float] here. *)
Definition number := PrimFloat.float.

Definition float_of_nat (n : nat) : number := PrimFloat.of_uint63 (Uint63.of_Z (Z.of_nat n)).

(** [Math.floor] of a finite number, as an integer; [None] for NaN and the
    infinities. *)
Definition js_floor (x : number) : option Z :=
  match FloatOps.Prim2SF x with
  | S754_zero _ => Some 0
  | S754_finite s m e =>
      let sm := if s then Z.neg m else Z.pos m in
      if 0 <=? e then Some (sm * 2 ^ e) else Some (sm / 2 ^ (- e))
  | _ => None
  end.

(** [Math.round]: the integer nearest to [x], halves rounded up, that is
    the floor of the exact value [x + 1/2]. *)
Definition js_round (x : number) : option Z :=
  match FloatOps.Prim2SF x with
  | S754_zero _ => Some 0
  | S754_finite s m e =>
      let sm := if s then Z.neg m else Z.pos m in
      if 0 <=? e then Some (sm * 2 ^ e)
      else Some ((2 * sm + 2 ^ (- e)) / 2 ^ (- e + 1))
  | _ => None
  end.

(** [new Float32Array(len)]: ToIndex of the length, a RangeError ([None]) for
    a negative or infinite one; NaN counts as 0 (but [js_round] has already
    mapped the non-finite values to [None]). *)
Definition to_index (n : option Z) : option nat :=
  match n with
  | Some k => if 0 <=? k then Some (Z.to_nat k) else None
  | None => None
  end.

(** [buffer[k]]: an index outside the array reads [undefined], which the
    [Float32Array] store turns into NaN. *)
Definition get (buffer : list number) (k : option Z) : number :=
  match k with
  | Some k => if (0 <=? k) && (k <? Z.of_nat (List.length buffer))
              then nth (Z.to_nat k) buffer PrimFloat.nan else PrimFloat.nan
  | None => PrimFloat.nan
  end.

(** [result[i] = v] on a typed array: ignored outside the array. *)
Fixpoint set_nth {A} (l : list A) (i : nat) (v : A) : list A :=
  match l, i with
  | [], _ => []
  | _ :: t, O => v :: t
  | h :: t, S i' => h :: set_nth t i' v
  end.

(** [for (let i = start; i < start + fuel; i++) result[i] = buffer[Math.floor(i * ratio)];] *)
Fixpoint fill (buffer : list number) (ratio : number) (i fuel : nat)
    (result : list number) : list number :=
  match fuel with
  | O => result
  | S f =>
      fill buffer ratio (S i) f
        (set_nth result i (get buffer (js_floor (PrimFloat.mul (float_of_nat i) ratio))))
  end.

(** [downsample(buffer, inputRate, outputRate)]; [None] when the
    [Float32Array] constructor throws. *)
Definition downsample (buffer : list number) (inputRate outputRate : number)
    : option (list number) :=
  if PrimFloat.eqb inputRate outputRate then Some buffer
  else
    let ratio := PrimFloat.div inputRate outputRate in
    match to_index (js_round (PrimFloat.div (float_of_nat (List.length buffer)) ratio)) with
    | Some newLength => Some (fill buffer ratio 0 newLength (repeat 0%float newLength))
    | None => None
    end.

(** [round(n / d)] and [floor(n / d)] in exact rational arithmetic, for
    [n >= 0] and [d > 0]: the formulas of the specification. *)
Definition exact_round_div (n d : Z) : Z := (2 * n + d) / (2 * d).
Definition exact_floor_div (n d : Z) : Z := n / d.

(** A buffer of [n] distinct samples [0, 1, ..., n-1]. *)
Definition ramp (n : nat) : list number := map float_of_nat (seq 0 n).

End Resample.

(* ------------------------------------------------------------------ *)
(** ** [LiveClient] (src/services/liveClient.ts, the version App.tsx uses:
       [connect(audioDeviceId?)]) *)

Module Live.

(** Browser objects are named by numeric handles, drawn from [next_id]. *)
Record LiveState := mkLive {
  inputAudioContext : option nat;
  outputAudioContext : option nat;
  stream : option nat;
  processor : bool;
  source : bool;
  isConnected : bool;
  sessionPromise : option nat;
  next_id : nat
}.

Inductive LiveEffect :=
| NewAudioContext (ctx : nat)
| ResumeContext (ctx : nat)
| GetUserMedia (audioDeviceId : option string)
| StartLiveSession (session : nat)
| ConsoleError (msg : string)
| ConnectionStateChange (connected : bool)
| SpeakingStateChange (speaking : bool)
| DisconnectProcessor
| DisconnectSource
| StopTracks (stream : nat)
| CloseContext (ctx : nat)
| CloseSession (session : nat).

(** The outcomes of the awaited browser and SDK calls of [connect]. *)
Record ConnectEnv := mkConnectEnv {
  microphone : option nat;     (* [getUserMedia] resolves to a stream, or rejects *)
  live_connect_throws : bool   (* [this.ai.live.connect] throws synchronously *)
}.

Definition opt_effect {A} (o : option A) (f : A -> LiveEffect) : list LiveEffect :=
  match o with Some x => [f x] | None => [] end.

(** [disconnect()] *)
Definition disconnect (st : LiveState) : LiveState * list LiveEffect :=
  if negb (isConnected st) && match sessionPromise st with None => true | Some _ => false end
  then (st, [])
  else
    (mkLive None None None false false false None (next_id st),
     [ConnectionStateChange false; SpeakingStateChange false]
     ++ (if processor st then [DisconnectProcessor] else [])
     ++ (if source st then [DisconnectSource] else [])
     ++ opt_effect (stream st) StopTracks
     ++ opt_effect (inputAudioContext st) CloseContext
     ++ opt_effect (outputAudioContext st) CloseContext
     ++ opt_effect (sessionPromise st) CloseSession).

(** [async connect(audioDeviceId?)], its awaits run to completion. *)
Definition connect (st : LiveState) (audioDeviceId : option string) (env : ConnectEnv)
    : LiveState * list LiveEffect :=
  if isConnected st then (st, [])
  else
    let i := next_id st in
    let o := S i in
    let st1 := mkLive (Some i) (Some o) (stream st) (processor st) (source st)
                      (isConnected st) (sessionPromise st) (S o) in
    let effs1 := [NewAudioContext i; NewAudioContext o; ResumeContext i; ResumeContext o;
                  GetUserMedia audioDeviceId] in
    match microphone env with
    | None => (st1, effs1 ++ [ConsoleError "Microphone access denied"])
    | Some mic =>
        let st2 := mkLive (Some i) (Some o) (Some mic) (processor st) (source st)
                          (isConnected st) (sessionPromise st) (S o) in
        if live_connect_throws env then
          let (st3, effs3) := disconnect st2 in
          (st3, effs1 ++ [ConsoleError "Failed to initiate Live Connect"] ++ effs3)
        else
          (mkLive (Some i) (Some o) (Some mic) (processor st) (source st)
                  (isConnected st) (Some (S o)) (S (S o)),
           effs1 ++ [StartLiveSession (S o)])
  end.

(** [onopen] of the session. *)
Definition onOpen (st : LiveState) : LiveState * list LiveEffect :=
  let st1 := mkLive (inputAudioContext st) (outputAudioContext st) (stream st)
                    (processor st) (source st) true (sessionPromise st) (next_id st) in
  match inputAudioContext st, stream st with
  | Some _, Some _ =>
      (mkLive (inputAudioContext st) (outputAudioContext st) (stream st)
              true true true (sessionPromise st) (next_id st),
       [ConnectionStateChange true])
  | _, _ => (st1, [ConnectionStateChange true])
  end.

Definition initial : LiveState := mkLive None None None false false false None 0.

End Live.

(* ------------------------------------------------------------------ *)
(** ** PCM framing of the audio bridge: [createBlob] and [decodeAudioData]
       (src/services/liveClient.ts) *)

Module Pcm.
Import Base64 Resample.
Open Scope Z_scope.

(** ToIntegerOrInfinity of a finite number: its truncation toward zero;
    [None] for NaN and the infinities. *)
Definition js_trunc (x : number) : option Z :=
  match FloatOps.Prim2SF x with
  | S754_zero _ => Some 0
  | S754_finite s m e =>
      let t := if 0 <=? e then Z.pos m * 2 ^ e else Z.pos m / 2 ^ (- e) in
      Some (if s then - t else t)
  | _ => None
  end.

(** ToInt16, the conversion of a store into an [Int16Array]: NaN and the
    infinities give 0, other numbers are truncated and wrapped modulo 2^16. *)
Definition to_int16 (x : number) : Z :=
  match js_trunc x with
  | Some z => let m := z mod 65536 in if 32768 <=? m then m - 65536 else m
  | None => 0
  end.

(** [int16[i] = data[i] * 32768] *)
Definition sample_int16 (x : number) : Z := to_int16 (PrimFloat.mul x 32768%float).

(** The two bytes of an [Int16Array] element in its buffer, little-endian
    (the byte order of the platforms browsers run on). *)
Definition le16 (v : Z) : list Z := let u := v mod 65536 in [u mod 256; u / 256].

(** The [Blob] of the SDK: base64 data and a MIME type. *)
Record Blob := mkBlob { data : option (list Z); mimeType : string }.

(** [createBlob(data)]: the samples as 16-bit PCM, [encode]d. *)
Definition createBlob (samples : list number) : Blob :=
  mkBlob (encode (flat_map le16 (map sample_int16 samples))) "audio/pcm;rate=16000".

(** An element of an [Int16Array] read from two little-endian bytes. *)
Definition int16_of_le (lo hi : Z) : Z :=
  let u := lo + 256 * hi in if 32768 <=? u then u - 65536 else u.

Fixpoint int16_elements (bs : list Z) : list Z :=
  match bs with
  | lo :: hi :: rest => int16_of_le lo hi :: int16_elements rest
  | _ => []
  end.

(** [new Int16Array(data.buffer)]: a RangeError ([None]) when the byte
    length is odd. *)
Definition int16_view (bs : list Z) : option (list Z) :=
  if Nat.even (List.length bs) then Some (int16_elements bs) else None.

(** An integer as a number (exact for the Int16 range). *)
Definition float_of_Z (z : Z) : number :=
  if z <? 0 then PrimFloat.opp (PrimFloat.of_uint63 (Uint63.of_Z (- z)))
  else PrimFloat.of_uint63 (Uint63.of_Z z).

(** [decodeAudioData(data, ctx, sampleRate, numChannels)]: the channel data
    of the [AudioBuffer], or [None] when it throws: the RangeError of the
    [Int16Array] view, or the NotSupportedError of [createBuffer] (no or more
    than 32 channels, zero frames, a sample rate outside [3000, 768000]).
    [frameCount] is converted to an [unsigned long] by truncation; the
    loop's writes past the channel's end are ignored. *)
Definition decodeAudioData (bytes : list Z) (sampleRate : Z) (numChannels : nat)
    : option (list (list number)) :=
  match int16_view bytes with
  | None => None
  | Some dataInt16 =>
      let frameCount := Nat.div (List.length dataInt16) numChannels in
      if (numChannels =? 0)%nat || (32 <? numChannels)%nat || (frameCount =? 0)%nat
         || (sampleRate <? 3000) || (768000 <? sampleRate)
      then None
      else Some (map (fun channel =>
                        map (fun i => PrimFloat.div
                                        (float_of_Z (nth (i * numChannels + channel) dataInt16 0))
                                        32768%float)
                            (seq 0 frameCount))
                     (seq 0 numChannels))
  end.

End Pcm.

(* ------------------------------------------------------------------ *)
(** ** The conferencing client (src/App.tsx)

    The React component is a record of its [useState] fields ([AppState]);
    an event handler is a function of the state of the render it was created
    in (its closure, [env]) and of the world; its [setX(...)] calls are
    queued [SetState] updates applied to the current state.  The world holds
    the Firebase Realtime Database contents under
    [meetings/{meetingId}/participants/{id}], the log of writes the client
    issued, the local media streams (shared, mutable objects: a stream is a
    handle into [media]), the [LiveClient] and the user-visible output.
    Awaited calls run to completion with their outcome given as an input. *)

Module Client.
Open Scope string_scope.

(** [Participant.role] of src/types.ts *)
Inductive Role := Host | Guest | Ai.

Definition role_eqb (r1 r2 : Role) : bool :=
  match r1, r2 with
  | Host, Host | Guest, Guest | Ai, Ai => true
  | _, _ => false
  end.

Inductive Step := StLanding | StName | StLobby | StMeeting.

Inductive ViewMode := GALLERY | SPEAKER | SCREEN_SHARE.

(** A participant record as stored in the database: a JSON object, any of
    whose fields may be missing (Firebase [update] on a missing record
    creates one holding only the updated fields). *)
Module P.
Record t := mk {
  id : option string;
  name : option string;
  avatarUrl : option string;
  isMuted : option bool;
  isVideoOff : option bool;
  isSpeaking : option bool;
  isScreenSharing : option bool;
  role : option Role
}.
Definition empty : t := mk None None None None None None None None.
End P.

(** JS truthiness of an optional boolean field. *)
Definition truthy (o : option bool) : bool :=
  match o with Some true => true | _ => false end.

(** [p.id === x] *)
Definition id_is (x : string) (p : P.t) : bool :=
  match P.id p with Some y => String.eqb y x | None => false end.

(** [p.role === r] *)
Definition role_is (r : Role) (p : P.t) : bool :=
  match P.role p with Some r' => role_eqb r' r | None => false end.

(** [`${x}`] of an optional string *)
Definition js_str (o : option string) : string :=
  match o with Some s => s | None => "undefined" end.

(** [AI_PARTICIPANT] (src/services/firebase.ts); strings are held as their
    UTF-8 bytes. *)
Definition AI_PARTICIPANT : P.t :=
  P.mk (Some "gemini-ai") (Some "Gemini AI (Модератор)")
       (Some "https://picsum.photos/seed/gemini/200/200")
       (Some false) (Some false) (Some false) None (Some Ai).

(** The fields of a [Partial<Participant>] passed to [update]. *)
Inductive Field :=
| FIsMuted (b : bool)
| FIsVideoOff (b : bool)
| FIsScreenSharing (b : bool)
| FIsSpeaking (b : bool)
| FRole (r : Role).

Definition apply_field (p : P.t) (f : Field) : P.t :=
  match f with
  | FIsMuted b => P.mk (P.id p) (P.name p) (P.avatarUrl p) (Some b) (P.isVideoOff p)
                       (P.isSpeaking p) (P.isScreenSharing p) (P.role p)
  | FIsVideoOff b => P.mk (P.id p) (P.name p) (P.avatarUrl p) (P.isMuted p) (Some b)
                          (P.isSpeaking p) (P.isScreenSharing p) (P.role p)
  | FIsScreenSharing b => P.mk (P.id p) (P.name p) (P.avatarUrl p) (P.isMuted p)
                               (P.isVideoOff p) (P.isSpeaking p) (Some b) (P.role p)
  | FIsSpeaking b => P.mk (P.id p) (P.name p) (P.avatarUrl p) (P.isMuted p)
                          (P.isVideoOff p) (Some b) (P.isScreenSharing p) (P.role p)
  | FRole r => P.mk (P.id p) (P.name p) (P.avatarUrl p) (P.isMuted p) (P.isVideoOff p)
                    (P.isSpeaking p) (P.isScreenSharing p) (Some r)
  end.

(** *** The roster store *)

(** A record lives at [meetings/{mid}/participants/{key}]. *)
Definition Key : Type := (string * string)%type.
Definition key_eqb (k1 k2 : Key) : bool :=
  String.eqb (fst k1) (fst k2) && String.eqb (snd k1) (snd k2).

Definition Store : Type := list (Key * P.t).

(** The writes of the client: [set], [update] and [remove] on a [ref]. *)
Inductive StoreOp :=
| OpSet (mid key : string) (v : P.t)
| OpUpdate (mid key : string) (fs : list Field)
| OpRemove (mid key : string).

(** The path of [ref(db, `meetings/${mid}/participants/${key}`)]. *)
Definition participant_path (mid key : string) : string :=
  "meetings/" ++ mid ++ "/participants/" ++ key.

Definition op_path (op : StoreOp) : string :=
  match op with
  | OpSet mid key _ | OpUpdate mid key _ | OpRemove mid key => participant_path mid key
  end.

Fixpoint store_get (s : Store) (k : Key) : option P.t :=
  match s with
  | [] => None
  | (k', v) :: s' => if key_eqb k k' then Some v else store_get s' k
  end.

Fixpoint store_set (s : Store) (k : Key) (v : P.t) : Store :=
  match s with
  | [] => [(k, v)]
  | (k', v') :: s' => if key_eqb k k' then (k, v) :: s' else (k', v') :: store_set s' k v
  end.

Definition store_remove (s : Store) (k : Key) : Store :=
  filter (fun kv => negb (key_eqb k (fst kv))) s.

Definition apply_op (s : Store) (op : StoreOp) : Store :=
  match op with
  | OpSet mid key v => store_set s (mid, key) v
  | OpUpdate mid key fs =>
      let old := match store_get s (mid, key) with Some p => p | None => P.empty end in
      store_set s (mid, key) (fold_left apply_field fs old)
  | OpRemove mid key => store_remove s (mid, key)
  end.

(** Insertion sort by a strict order. *)
Fixpoint insert_by {A} (lt : A -> A -> bool) (x : A) (l : list A) : list A :=
  match l with
  | [] => [x]
  | y :: l' => if lt x y then x :: l else y :: insert_by lt x l'
  end.

Fixpoint sort_by {A} (lt : A -> A -> bool) (l : list A) : list A :=
  match l with
  | [] => []
  | x :: l' => insert_by lt x (sort_by lt l')
  end.

(** The decimal value of a non-empty string of digits. *)
Definition digit_value (c : ascii) : option Z :=
  let n := Z.of_nat (nat_of_ascii c) in
  if (48 <=? n)%Z && (n <=? 57)%Z then Some (n - 48)%Z else None.

Fixpoint digits_value (l : list ascii) (acc : Z) : option Z :=
  match l with
  | [] => Some acc
  | c :: l' => match digit_value c with
               | Some d => digits_value l' (10 * acc + d)%Z
               | None => None
               end
  end.

Fixpoint strip_zeros (l : list ascii) : list ascii :=
  match l with
  | c :: l' => if Ascii.eqb c "0"%char then strip_zeros l' else l
  | [] => []
  end.

(** Firebase's [tryParseInt]: a key made of an optional minus sign, any
    leading zeros and then 1 to 10 digits (its [INTEGER_REGEXP_]), whose
    [Number] value is a 32-bit integer. *)
Definition tryParseInt (k : string) : option Z :=
  let '(neg, body) := match list_ascii_of_string k with
                      | c :: r => if Ascii.eqb c "-"%char then (true, r)
                                  else (false, c :: r)
                      | [] => (false, [])
                      end in
  match body, digits_value body 0 with
  | _ :: _, Some v =>
      if (List.length (strip_zeros body) <=? 10)%nat then
        let n := if neg then (- v)%Z else v in
        if (-2147483648 <=? n)%Z && (n <=? 2147483647)%Z then Some n else None
      else None
  | _, _ => None
  end.

(** JavaScript's [a < b] on strings, compared code unit by code unit. *)
Definition js_str_lt (a b : string) : bool :=
  match String.compare a b with Lt => true | _ => false end.

(** Firebase's [nameCompare]: keys that parse as 32-bit integers first, by
    value (then by length), the other keys after them in string order. *)
Definition nameCompare (a b : string) : Z :=
  if String.eqb a b then 0%Z
  else match tryParseInt a, tryParseInt b with
       | Some x, Some y =>
           if (x - y =? 0)%Z then (Z.of_nat (String.length a) - Z.of_nat (String.length b))%Z
           else (x - y)%Z
       | Some _, None => (-1)%Z
       | None, Some _ => 1%Z
       | None, None => if js_str_lt a b then (-1)%Z else 1%Z
       end.

(** A key that is an array index of a JavaScript object: a canonical
    decimal numeral below 2^32 - 1. *)
Definition array_index (k : string) : option Z :=
  match list_ascii_of_string k with
  | [] => None
  | c :: r =>
      if Ascii.eqb c "0"%char && negb (match r with [] => true | _ => false end) then None
      else match digits_value (c :: r) 0 with
           | Some v => if (v <=? 4294967294)%Z then Some v else None
           | None => None
           end
  end.

Definition is_array_index (k : string) : bool :=
  match array_index k with Some _ => true | None => false end.

Definition index_lt (a b : string) : bool :=
  match array_index a, array_index b with Some x, Some y => (x <? y)%Z | _, _ => false end.

(** The children of [meetings/{mid}/participants] in the order
    [Object.values(snapshot.val())] lists them: [val()] builds the object in
    Firebase's key order ([nameCompare]), and a JavaScript object then
    enumerates its array-index keys first, ascending, and its other keys in
    insertion order. *)
Definition roster_children (s : Store) (mid : string) : list (Key * P.t) :=
  let kids := sort_by (fun a b => (nameCompare (snd (fst a)) (snd (fst b)) <? 0)%Z)
                      (filter (fun kv => String.eqb (fst (fst kv)) mid) s) in
  (sort_by (fun a b => index_lt (snd (fst a)) (snd (fst b)))
           (filter (fun kv => is_array_index (snd (fst kv))) kids)
   ++ filter (fun kv => negb (is_array_index (snd (fst kv)))) kids)%list.

(** [snapshot.val()] of [meetings/{mid}/participants] read through
    [Object.values]: [None] ([null]) when there are no children. *)
Definition snapshot (s : Store) (mid : string) : option (list P.t) :=
  match map snd (roster_children s mid) with
  | [] => None
  | l => Some l
  end.

(** *** Local media *)

Inductive TrackKind := Audio | Video.

Definition kind_eqb (k1 k2 : TrackKind) : bool :=
  match k1, k2 with Audio, Audio | Video, Video => true | _, _ => false end.

Record Track := mkTrack { kind : TrackKind; enabled : bool; stopped : bool; deviceId : string }.

(** The [MediaStream] objects, by handle, with their tracks. *)
Definition Media : Type := list (nat * list Track).

Definition stream_tracks (m : Media) (sid : nat) : list Track :=
  match find (fun e => Nat.eqb (fst e) sid) m with Some e => snd e | None => [] end.

Definition media_map (m : Media) (sid : nat) (f : Track -> Track) : Media :=
  map (fun e => if Nat.eqb (fst e) sid then (fst e, map f (snd e)) else e) m.

(** [track.enabled = b] on the tracks of one kind *)
Definition set_enabled (k : TrackKind) (b : bool) (t : Track) : Track :=
  if kind_eqb (kind t) k then mkTrack (kind t) b (stopped t) (deviceId t) else t.

(** [track.stop()] *)
Definition stop_track (t : Track) : Track := mkTrack (kind t) (enabled t) true (deviceId t).

(** *** Component state *)

Record AppState := mkApp {
  step : Step;
  userName : string;
  meetingId : string;
  localRole : Role;
  viewMode : ViewMode;
  participants : list P.t;
  activeScreenId : option string;
  localStream : option nat;
  screenStream : option nat;
  isMuted : bool;
  isVideoOff : bool;
  audioDevices : list string;
  videoDevices : list string;
  selectedAudioId : string;
  selectedVideoId : string;
  isAuthReady : bool;
  dbError : option string
}.

(** The [setX(...)] calls; [setActiveScreenId] also takes an updater. *)
Inductive SetState :=
| SetStep (v : Step)
| SetMeetingId (v : string)
| SetLocalRole (v : Role)
| SetViewMode (v : ViewMode)
| SetParticipants (v : list P.t)
| SetActiveScreenId (f : option string -> option string)
| SetLocalStream (v : option nat)
| SetScreenStream (v : option nat)
| SetIsMuted (v : bool)
| SetIsVideoOff (v : bool)
| SetAudioDevices (v : list string)
| SetVideoDevices (v : list string)
| SetSelectedAudioId (v : string)
| SetSelectedVideoId (v : string)
| SetDbError (v : option string).

Definition apply_set (a : AppState) (c : SetState) : AppState :=
  let 'mkApp st un mid lr vm ps asi ls ss im iv ad vd sa sv ar de := a in
  match c with
  | SetStep v => mkApp v un mid lr vm ps asi ls ss im iv ad vd sa sv ar de
  | SetMeetingId v => mkApp st un v lr vm ps asi ls ss im iv ad vd sa sv ar de
  | SetLocalRole v => mkApp st un mid v vm ps asi ls ss im iv ad vd sa sv ar de
  | SetViewMode v => mkApp st un mid lr v ps asi ls ss im iv ad vd sa sv ar de
  | SetParticipants v => mkApp st un mid lr vm v asi ls ss im iv ad vd sa sv ar de
  | SetActiveScreenId f => mkApp st un mid lr vm ps (f asi) ls ss im iv ad vd sa sv ar de
  | SetLocalStream v => mkApp st un mid lr vm ps asi v ss im iv ad vd sa sv ar de
  | SetScreenStream v => mkApp st un mid lr vm ps asi ls v im iv ad vd sa sv ar de
  | SetIsMuted v => mkApp st un mid lr vm ps asi ls ss v iv ad vd sa sv ar de
  | SetIsVideoOff v => mkApp st un mid lr vm ps asi ls ss im v ad vd sa sv ar de
  | SetAudioDevices v => mkApp st un mid lr vm ps asi ls ss im iv v vd sa sv ar de
  | SetVideoDevices v => mkApp st un mid lr vm ps asi ls ss im iv ad v sa sv ar de
  | SetSelectedAudioId v => mkApp st un mid lr vm ps asi ls ss im iv ad vd v sv ar de
  | SetSelectedVideoId v => mkApp st un mid lr vm ps asi ls ss im iv ad vd sa v ar de
  | SetDbError v => mkApp st un mid lr vm ps asi ls ss im iv ad vd sa sv ar v
  end.

Definition const_id (v : option string) : option string -> option string := fun _ => v.

(** What the user sees besides the rendered state, and the console. *)
Inductive UiEffect :=
| Alert (msg : string)
| ConsoleError (msg : string)
| ConsoleWarn (msg : string).

Record World := mkWorld {
  appState : AppState;
  store : Store;
  writes : list StoreOp;
  media : Media;
  live : Live.LiveState;
  fresh : nat;
  ui : list UiEffect;
  mySessionId : string
}.

Definition setS (cs : list SetState) (w : World) : World :=
  mkWorld (fold_left apply_set cs (appState w)) (store w) (writes w) (media w) (live w)
          (fresh w) (ui w) (mySessionId w).

Definition write (op : StoreOp) (w : World) : World :=
  mkWorld (appState w) (apply_op (store w) op) (writes w ++ [op])%list (media w) (live w)
          (fresh w) (ui w) (mySessionId w).

Definition emit (e : UiEffect) (w : World) : World :=
  mkWorld (appState w) (store w) (writes w) (media w) (live w) (fresh w) (ui w ++ [e])%list
          (mySessionId w).

(** [stream.getTracks().forEach(f)] (or a kind-filtered variant) on a
    stream held in a possibly null variable. *)
Definition on_stream (s : option nat) (f : Track -> Track) (w : World) : World :=
  match s with
  | Some sid =>
      mkWorld (appState w) (store w) (writes w) (media_map (media w) sid f) (live w)
              (fresh w) (ui w) (mySessionId w)
  | None => w
  end.

(** A stream returned by [getUserMedia] / [getDisplayMedia]. *)
Definition new_stream (tracks : list Track) (w : World) : nat * World :=
  (fresh w,
   mkWorld (appState w) (store w) (writes w) (media w ++ [(fresh w, tracks)])%list (live w)
           (S (fresh w)) (ui w) (mySessionId w)).

Definition live_disconnect (w : World) : World :=
  mkWorld (appState w) (store w) (writes w) (media w) (fst (Live.disconnect (live w)))
          (fresh w) (ui w) (mySessionId w).

(** *** Handlers of the component *)

(** JS truthiness of a possibly null string. *)
Definition str_truthy (o : option string) : bool :=
  match o with Some x => negb (String.eqb x "") | None => false end.

Definition opt_str_eqb (o1 o2 : option string) : bool :=
  match o1, o2 with
  | Some x, Some y => String.eqb x y
  | None, None => true
  | _, _ => false
  end.

(** [leaveMeeting] of the render [env]. *)
Definition leaveMeeting (env : AppState) (w : World) : World :=
  let me := mySessionId w in
  let w1 := if negb (String.eqb (meetingId env) "") && negb (String.eqb me "")
               && isAuthReady env
            then write (OpRemove (meetingId env) me) w else w in
  let w2 := setS [SetStep StLanding; SetMeetingId ""; SetLocalRole Guest;
                  SetParticipants []] w1 in
  let w3 := on_stream (localStream env) stop_track w2 in
  let w4 := on_stream (screenStream env) stop_track w3 in
  let w5 := setS [SetLocalStream None; SetScreenStream None; SetViewMode GALLERY;
                  SetActiveScreenId (const_id None)] w4 in
  live_disconnect w5.

(** The [onValue] callback on [meetings/{meetingId}/participants],
    created by the effect of the render [env] (the effect depends on
    [step], [meetingId] and [isAuthReady] only). *)
Definition onRosterValue (env : AppState) (data : option (list P.t)) (w : World) : World :=
  let me := mySessionId w in
  match data with
  | Some participantList =>
      if negb (existsb (id_is me) participantList) then
        (* "You were removed by the organizer or the meeting ended." *)
        leaveMeeting env (emit (Alert "removed") w)
      else
        let sharer := find (fun p => truthy (P.isScreenSharing p)) participantList in
        let w1 := match sharer, str_truthy (activeScreenId env) with
                  | Some _, false => w   (* "Auto switch logic could go here" *)
                  | None, true =>
                      setS [SetActiveScreenId (const_id None); SetViewMode GALLERY] w
                  | _, _ => w
                  end in
        let w2 := match find (id_is me) participantList with
                  | Some myData =>
                      if truthy (P.isMuted myData) && negb (isMuted env)
                      then on_stream (localStream env) (set_enabled Audio false)
                                     (setS [SetIsMuted true] w1)
                      else w1
                  | None => w1
                  end in
        setS [SetParticipants participantList] w2
  | None => setS [SetParticipants []] w
  end.

(** The effect subscribes in a render of the meeting screen. *)
Definition subscribed (env : AppState) : bool :=
  match step env with StMeeting => true | _ => false end
  && negb (String.eqb (meetingId env) "") && isAuthReady env.

(** Firebase delivers the current roster to the callback. *)
Definition deliver (env : AppState) (w : World) : World :=
  onRosterValue env (snapshot (store w) (meetingId env)) w.

Definition opt_eqb {A} (eqb : A -> A -> bool) (x y : option A) : bool :=
  match x, y with
  | Some a, Some b => eqb a b
  | None, None => true
  | _, _ => false
  end.

Definition participant_eqb (p q : P.t) : bool :=
  opt_eqb String.eqb (P.id p) (P.id q) && opt_eqb String.eqb (P.name p) (P.name q)
  && opt_eqb String.eqb (P.avatarUrl p) (P.avatarUrl q)
  && opt_eqb Bool.eqb (P.isMuted p) (P.isMuted q)
  && opt_eqb Bool.eqb (P.isVideoOff p) (P.isVideoOff q)
  && opt_eqb Bool.eqb (P.isSpeaking p) (P.isSpeaking q)
  && opt_eqb Bool.eqb (P.isScreenSharing p) (P.isScreenSharing q)
  && opt_eqb role_eqb (P.role p) (P.role q).

Fixpoint roster_eqb (l1 l2 : list P.t) : bool :=
  match l1, l2 with
  | [], [] => true
  | p :: l1', q :: l2' => participant_eqb p q && roster_eqb l1' l2'
  | _, _ => false
  end.

(** Firebase raises a [value] event synchronously, inside the local [set],
    [update] or [remove] call that changes the data under the listened
    location (from the client's local cache). [sub] is the render whose
    [onValue] callback is subscribed ([None] when the roster effect has no
    subscription, off the meeting screen); [before] and [after] are the
    world just before and just after the write. *)
Definition local_value_event (sub : option AppState) (before after : World) : World :=
  match sub with
  | Some env_sub =>
      if opt_eqb roster_eqb (snapshot (store before) (meetingId env_sub))
                            (snapshot (store after) (meetingId env_sub))
      then after
      else deliver env_sub after
  | None => after
  end.

(** [updateMyStatus(updates)] *)
Definition updateMyStatus (env : AppState) (fs : list Field) (w : World) : World :=
  write (OpUpdate (meetingId env) (mySessionId w) fs) w.

(** [toggleMute] *)
Definition toggleMute (env : AppState) (w : World) : World :=
  let w1 := on_stream (localStream env) (set_enabled Audio (negb (isMuted env))) w in
  let newMuted := negb (isMuted env) in
  updateMyStatus env [FIsMuted newMuted] (setS [SetIsMuted newMuted] w1).

(** [toggleVideo] *)
Definition toggleVideo (env : AppState) (w : World) : World :=
  let w1 := on_stream (localStream env) (set_enabled Video (negb (isVideoOff env))) w in
  let newVideoOff := negb (isVideoOff env) in
  updateMyStatus env [FIsVideoOff newVideoOff] (setS [SetIsVideoOff newVideoOff] w1).

(** [toggleScreenShare]; [display] is what [getDisplayMedia] resolves to
    ([None]: the user cancels or it fails). *)
Definition toggleScreenShare (env : AppState) (display : option (list Track)) (w : World)
    : World :=
  let me := mySessionId w in
  match screenStream env with
  | Some sid =>
      let w1 := on_stream (Some sid) stop_track w in
      let w2 := setS [SetScreenStream None] w1 in
      let w3 := if opt_str_eqb (activeScreenId env) (Some me)
                then setS [SetActiveScreenId (const_id None); SetViewMode GALLERY] w2
                else w2 in
      updateMyStatus env [FIsScreenSharing false] w3
  | None =>
      match display with
      | None => emit (ConsoleError "Screen share cancelled or failed") w
      | Some tracks =>
          let (sid, w1) := new_stream tracks w in
          let w2 := setS [SetScreenStream (Some sid); SetActiveScreenId (const_id (Some me));
                          SetViewMode SCREEN_SHARE] w1 in
          let w3 := updateMyStatus env [FIsScreenSharing true] w2 in
          (* [stream.getVideoTracks()[0].onended = ...] throws without a video track *)
          if existsb (fun t => kind_eqb (kind t) Video) tracks then w3
          else emit (ConsoleError "Screen share cancelled or failed") w3
      end
  end.

(** The [onended] callback of the shared screen's video track. *)
Definition screenTrackEnded (env : AppState) (w : World) : World :=
  let me := mySessionId w in
  let w1 := setS [SetScreenStream None;
                  SetActiveScreenId (fun prev => if opt_str_eqb prev (Some me) then None else prev)] w in
  updateMyStatus env [FIsScreenSharing false] w1.

(** The outcome of [await set(userRef, localUser)]. *)
Inductive DbOutcome := DbOk | DbPermissionDenied | DbFailed (msg : string).

Definition first_audio_device (ts : list Track) : option string :=
  match filter (fun t => kind_eqb (kind t) Audio) ts with
  | t :: _ => Some (deviceId t)
  | [] => None
  end.

(** [startMeeting]; [gum] is what [getUserMedia] resolves to ([None]: it
    rejects, e.g. permission denied or no device). The [get(aiRef)] lookup
    is resolved at once. *)
Definition startMeeting (env : AppState) (db : DbOutcome) (gum : option (list Track))
    (w : World) : World :=
  if negb (isAuthReady env) then emit (Alert "Waiting for the server connection...") w
  else
    let me := mySessionId w in
    let localUser := P.mk (Some me) (Some (userName env)) (Some "") (Some (isMuted env))
                          (Some (isVideoOff env)) (Some false) None (Some (localRole env)) in
    match db with
    | DbPermissionDenied => setS [SetDbError (Some "PERMISSION_DENIED")] w
    | DbFailed msg => emit (Alert ("Database connection error: " ++ msg)) w
    | DbOk =>
        let w1 := write (OpSet (meetingId env) me localUser) w in
        let w2 := if role_eqb (localRole env) Host then
                    match store_get (store w1) (meetingId env, "gemini-ai") with
                    | Some _ => w1
                    | None => write (OpSet (meetingId env) "gemini-ai" AI_PARTICIPANT) w1
                    end
                  else w1 in
        let need := match localStream env with
                    | None => true
                    | Some sid => negb (opt_str_eqb (first_audio_device (stream_tracks (media w2) sid))
                                                    (Some (selectedAudioId env)))
                    end in
        let w3 := if need then
                    match gum with
                    | Some tracks =>
                        let tracks' := map (fun t => set_enabled Video (negb (isVideoOff env))
                                                       (set_enabled Audio (negb (isMuted env)) t))
                                           tracks in
                        let (sid, w') := new_stream tracks' w2 in
                        setS [SetLocalStream (Some sid)] w'
                    | None => emit (ConsoleError "Error starting meeting stream") w2
                    end
                  else w2 in
        setS [SetStep StMeeting] w3
    end.

(** [refreshDevices(requestPerms)]; [devices] is what [enumerateDevices]
    resolves to, as (kind, deviceId) pairs. *)
Definition refreshDevices (env : AppState) (requestPerms : bool) (gum : option (list Track))
    (devices : option (list (TrackKind * string))) (w : World) : World :=
  let w1 := if requestPerms then
              match gum with
              | Some tracks => let (sid, w') := new_stream tracks w in
                               Some (setS [SetLocalStream (Some sid)] w')
              | None => None
              end
            else Some w in
  match w1 with
  | None => emit (ConsoleWarn "Could not enumerate devices") w
  | Some w1 =>
      match devices with
      | None => emit (ConsoleWarn "Could not enumerate devices") w1
      | Some ds =>
          let audio := map snd (filter (fun d => kind_eqb (fst d) Audio) ds) in
          let video := map snd (filter (fun d => kind_eqb (fst d) Video) ds) in
          setS ([SetAudioDevices audio; SetVideoDevices video]
                ++ (if String.eqb (selectedAudioId env) "" then
                      match audio with a :: _ => [SetSelectedAudioId a] | [] => [] end
                    else [])
                ++ (if String.eqb (selectedVideoId env) "" then
                      match video with v :: _ => [SetSelectedVideoId v] | [] => [] end
                    else []))%list w1
      end
  end.

(** [userName.trim()] is empty: the name, held as its UTF-8 bytes, consists
    of the characters [trim] strips: TAB, LF, VT, FF, CR, SPACE, U+00A0,
    U+1680, U+2000 to U+200A, U+2028, U+2029, U+202F, U+205F, U+3000 and
    U+FEFF. *)
Definition byte_is (c : ascii) (n : N) : bool := N.eqb (N_of_ascii c) n.

Fixpoint blank (x : string) : bool :=
  match x with
  | EmptyString => true
  | String c r =>
      if byte_is c 9 || byte_is c 10 || byte_is c 11 || byte_is c 12 || byte_is c 13
         || byte_is c 32
      then blank r
      else if byte_is c 194 then                                (* U+00A0 *)
        match r with String c2 r2 => byte_is c2 160 && blank r2 | _ => false end
      else if byte_is c 225 then                                (* U+1680 *)
        match r with
        | String c2 (String c3 r3) => byte_is c2 154 && byte_is c3 128 && blank r3
        | _ => false
        end
      else if byte_is c 226 then     (* U+2000-200A, 2028, 2029, 202F, 205F *)
        match r with
        | String c2 (String c3 r3) =>
            ((byte_is c2 128
              && ((N.leb 128 (N_of_ascii c3) && N.leb (N_of_ascii c3) 138)
                  || byte_is c3 168 || byte_is c3 169 || byte_is c3 175))
             || (byte_is c2 129 && byte_is c3 159))
            && blank r3
        | _ => false
        end
      else if byte_is c 227 then                                (* U+3000 *)
        match r with
        | String c2 (String c3 r3) => byte_is c2 128 && byte_is c3 128 && blank r3
        | _ => false
        end
      else if byte_is c 239 then                                (* U+FEFF *)
        match r with
        | String c2 (String c3 r3) => byte_is c2 187 && byte_is c3 191 && blank r3
        | _ => false
        end
      else false
  end.

(** [handleNameSubmit] *)
Definition handleNameSubmit (env : AppState) (gum : option (list Track))
    (devices : option (list (TrackKind * string))) (w : World) : World :=
  if blank (userName env) then emit (Alert "Please enter your full name") w
  else setS [SetStep StLobby] (refreshDevices env true gum devices w).

(** *** Host controls *)

Definition muteAll (env : AppState) (w : World) : World :=
  fold_left (fun w p =>
               if negb (role_is Host p) && negb (role_is Ai p) && negb (truthy (P.isMuted p))
               then write (OpUpdate (meetingId env) (js_str (P.id p)) [FIsMuted true]) w
               else w)
            (participants env) w.

Definition muteParticipant (env : AppState) (pid : string) (w : World) : World :=
  match find (id_is pid) (participants env) with
  | Some p => write (OpUpdate (meetingId env) pid [FIsMuted (negb (truthy (P.isMuted p)))]) w
  | None => w
  end.

(** [kickParticipant(id)]; [confirmed] is the answer to [confirm(...)]. *)
Definition kickParticipant (env : AppState) (confirmed : bool) (pid : string) (w : World)
    : World :=
  if confirmed then write (OpRemove (meetingId env) pid) w else w.

Definition toggleParticipantRole (env : AppState) (pid : string) (w : World) : World :=
  match find (id_is pid) (participants env) with
  | Some p =>
      let newRole := if role_is Host p then Guest else Host in
      write (OpUpdate (meetingId env) pid [FRole newRole]) w
  | None => w
  end.

(** The moderation buttons of the participants sidebar ([renderSidebar]). *)
Inductive Control := CMuteAll | CToggleRole (pid : string) | CMute (pid : string)
                   | CKick (pid : string).

Definition isLocalHost (a : AppState) (me : string) : bool :=
  match find (id_is me) (participants a) with
  | Some localParticipant => role_is Host localParticipant
  | None => false
  end.

Definition moderationControls (a : AppState) (me : string) : list Control :=
  ((if isLocalHost a me then [CMuteAll] else [])
   ++ flat_map (fun p => if negb (role_is Ai p) && negb (id_is me p) && isLocalHost a me
                         then [CToggleRole (js_str (P.id p)); CMute (js_str (P.id p));
                               CKick (js_str (P.id p))]
                         else [])
               (participants a))%list.


(** [handleDeviceChange(type, deviceId)]; [gum] is what [getUserMedia]
    resolves to for the new constraints. *)
Definition handleDeviceChange (env : AppState) (type : TrackKind) (deviceId : string)
    (gum : option (list Track)) (w : World) : World :=
  let w1 := setS [match type with
                  | Audio => SetSelectedAudioId deviceId
                  | Video => SetSelectedVideoId deviceId
                  end] w in
  match localStream env with
  | None => w1
  | Some old =>
      match gum with
      | None => emit (ConsoleError "Failed to switch device") w1
      | Some tracks =>
          let (sid, w2) := new_stream tracks w1 in
          let w3 := on_stream (Some old) stop_track w2 in
          let w4 := on_stream (Some sid) (set_enabled Audio (negb (isMuted env))) w3 in
          let w5 := on_stream (Some sid) (set_enabled Video (negb (isVideoOff env))) w4 in
          setS [SetLocalStream (Some sid)] w5
      end
  end.

(** The [onSpeakingStateChange] callback the mount effect installs on the
    [LiveClient], a closure over the render [env] the effect runs in. *)
Definition onSpeakingStateChange (env : AppState) (speaking : bool) (w : World) : World :=
  if role_eqb (localRole env) Host && negb (String.eqb (meetingId env) "")
  then write (OpUpdate (meetingId env) "gemini-ai" [FIsSpeaking speaking]) w
  else w.

(** The first render, whose effects include the mount effect ([[]] deps). *)
Definition app_mount : AppState :=
  mkApp StLanding "" "" Guest GALLERY [] None None None false false [] [] "" "" false None.

End Client.

(* ------------------------------------------------------------------ *)
(** ** Notions of the specification and concrete runs of the client *)

Module Scenarios.
Import Client.
Open Scope string_scope.

(** A signalling write from the specification (section 6): a write under
    [meetings/{mid}/signals/{recipient}/...]; an offer to [recipient] is
    such a write. Counted over a list of writes. *)
Definition signal_prefix (mid recipient : string) : string :=
  "meetings/" ++ mid ++ "/signals/" ++ recipient.

Definition offers_sent (mid recipient : string) (ops : list StoreOp) : nat :=
  List.length (filter (fun op => String.prefix (signal_prefix mid recipient) (op_path op)) ops).

(** The ids of the participant list, and the specification's target set
    [roster - {self, agents}]. *)
Definition ids (ps : list P.t) : list string := map (fun p => js_str (P.id p)) ps.

Definition roster_minus_self_agents (me : string) (ps : list P.t) : list string :=
  ids (filter (fun p => negb (id_is me p) && negb (role_is Ai p)) ps).

(** Live, enabled video tracks among the client's local and screen streams. *)
Definition active_video_sources (a : AppState) (m : Media) : nat :=
  let live_video (o : option nat) :=
      match o with
      | Some sid => List.length (filter (fun t => kind_eqb (kind t) Video && enabled t
                                                  && negb (stopped t)) (stream_tracks m sid))
      | None => 0
      end in
  (live_video (localStream a) + live_video (screenStream a))%nat.

Definition has_alert (u : list UiEffect) : bool :=
  existsb (fun e => match e with Alert _ => true | _ => false end) u.

(** The component's initial state, authentication done. *)
Definition app0 : AppState :=
  mkApp StLanding "" "" Guest GALLERY [] None None None false false [] [] "" "" true None.

Definition cam : list Track := [mkTrack Audio true false "mic-1"; mkTrack Video true false "cam-1"].
Definition screen : list Track := [mkTrack Video true false "screen:0"].

Definition record (pid : string) (r : Role) : P.t :=
  P.mk (Some pid) (Some pid) (Some "") (Some false) (Some false) (Some false) None (Some r).

(** Meeting "m1": host "h" and the AI participant. *)
Definition store_h : Store :=
  [(("m1", "h"), record "h" Host); (("m1", "gemini-ai"), AI_PARTICIPANT)].

(** Client "x" in the lobby of "m1" with its camera preview (stream 0). *)
Definition lobby_x : AppState :=
  mkApp StLobby "x" "m1" Guest GALLERY [] None (Some 0) None false false
        ["mic-1"] ["cam-1"] "mic-1" "cam-1" true None.

Definition world_x : World := mkWorld lobby_x store_h [] [(0, cam)] Live.initial 1 [] "x".

Definition with_store (w : World) (s : Store) : World :=
  mkWorld (appState w) s (writes w) (media w) (live w) (fresh w) (ui w) (mySessionId w).

(** x joins; the roster effect subscribes in the first meeting render. *)
Definition x_joined : World := startMeeting lobby_x DbOk None world_x.
Definition x_env : AppState := appState x_joined.
Definition x_in : World := deliver x_env x_joined.
(** x shares its screen (stream 1). *)
Definition x_sharing : World := toggleScreenShare (appState x_in) (Some screen) x_in.

(** The host's render, and its kick of x (confirmed). *)
Definition host_env (ps : list P.t) : AppState :=
  mkApp StMeeting "h" "m1" Host GALLERY ps None None None false false [] [] "" "" true None.

Definition host_world (s : Store) : World := mkWorld (host_env []) s [] [] Live.initial 0 [] "h".

Definition after_kick : World :=
  kickParticipant (host_env (participants (appState x_sharing))) true "x"
                  (host_world (store x_sharing)).

(** x's roster callback (closure of [x_env]) receives the next snapshot. *)
Definition x_kicked : World := deliver x_env (with_store x_sharing (store after_kick)).

(** The Leave button of the current render instead. *)
Definition x_left : World := leaveMeeting (appState x_sharing) x_sharing.

(** Two clients "alpha" and "beta" in meeting "m2", each processing the
    same roster snapshot. *)
Definition store_ab : Store :=
  [(("m2", "alpha"), record "alpha" Guest); (("m2", "beta"), record "beta" Guest)].

Definition env_of (me : string) : AppState :=
  mkApp StMeeting me "m2" Guest GALLERY [] None None None false false [] [] "" "" true None.

Definition world_of (me : string) : World := mkWorld (env_of me) store_ab [] [] Live.initial 0 [] me.

Definition alpha_after : World := deliver (env_of "alpha") (world_of "alpha").
Definition beta_after : World := deliver (env_of "beta") (world_of "beta").

(** A guest's render in meeting "m2": "alpha" and "beta" are both guests. *)
Definition roster_ab : list P.t := [record "alpha" Guest; record "beta" Guest].

Definition guest_env : AppState :=
  mkApp StMeeting "alpha" "m2" Guest GALLERY roster_ab None None None false false
        [] [] "" "" true None.







(** Client "y" in the lobby of "m1" without any stream (the preview's
    [getUserMedia] failed too); [getUserMedia] fails again on joining. *)
Definition lobby_y : AppState :=
  mkApp StLobby "y" "m1" Guest GALLERY [] None None None false false [] [] "" "" true None.

Definition world_y : World := mkWorld lobby_y store_h [] [] Live.initial 0 [] "y".

Definition y_joined : World := startMeeting lobby_y DbOk None world_y.

End Scenarios.

(* ================================================================== *)
(** * Proofs *)

Module Base64Facts.
Import Base64.
Open Scope Z_scope.

Example enc_hello :
  encode (map code_of (list_ascii_of_string "Hello"))
  = Some (map code_of (list_ascii_of_string "SGVsbG8=")).
Proof. vm_compute. reflexivity. Qed.

Example dec_hello :
  decode (map code_of (list_ascii_of_string "SGVsbG8="))
  = Some (map code_of (list_ascii_of_string "Hello")).
Proof. vm_compute. reflexivity. Qed.

Lemma in_range n x : 0 <= x < Z.of_nat n -> In x (range n).
Proof.
  intros H. unfold range. apply in_map_iff. exists (Z.to_nat x).
  split; [lia|]. apply in_seq. lia.
Qed.

Lemma check1 (P : Z -> bool) n :
  forallb P (range n) = true -> forall x, 0 <= x < Z.of_nat n -> P x = true.
Proof.
  intros H x Hx. rewrite forallb_forall in H. apply H, in_range, Hx.
Qed.

Lemma check2 (P : Z -> Z -> bool) n :
  forallb (fun x => forallb (P x) (range n)) (range n) = true ->
  forall x y, 0 <= x < Z.of_nat n -> 0 <= y < Z.of_nat n -> P x y = true.
Proof.
  intros H x y Hx Hy.
  apply (check1 (P x) n); [|exact Hy].
  exact (check1 (fun x => forallb (P x) (range n)) n H x Hx).
Qed.

Ltac by_table1 f n :=
  intros x Hx; apply Z.eqb_eq;
  refine (check1 f n _ x Hx); vm_compute; reflexivity.

Ltac by_table2 f n :=
  intros x y Hx Hy; apply Z.eqb_eq;
  refine (check2 f n _ x y Hx Hy); vm_compute; reflexivity.

(** Characters of the alphabet. *)
Lemma char_sextet_char s : 0 <= s < 64 -> char_sextet (sextet_char s) = Some s.
Proof.
  intros Hs.
  assert (H : forallb (fun s => match char_sextet (sextet_char s) with
                                | Some t => t =? s | None => false end)
                      (range 64) = true) by (vm_compute; reflexivity).
  pose proof (check1 _ 64 H s Hs) as E. simpl in E.
  destruct (char_sextet (sextet_char s)); [apply Z.eqb_eq in E; subst|]; easy.
Qed.

Lemma sextet_char_not_pad s : 0 <= s < 64 -> (sextet_char s =? pad) = false.
Proof.
  intros Hs. apply negb_true_iff.
  refine (check1 (fun s => negb (sextet_char s =? pad)) 64 _ s Hs).
  vm_compute; reflexivity.
Qed.

Lemma sextet_char_not_ws s : 0 <= s < 64 -> is_ascii_whitespace (sextet_char s) = false.
Proof.
  intros Hs. apply negb_true_iff.
  refine (check1 (fun s => negb (is_ascii_whitespace (sextet_char s))) 64 _ s Hs).
  vm_compute; reflexivity.
Qed.

(** Bit arithmetic of one group, checked over all byte values. *)
Lemma byte1 : forall x y, is_byte x -> is_byte y ->
  Z.lor (Z.shiftl (s1 x) 2) (Z.shiftr (s2 x y) 4) = x.
Proof. by_table2 (fun a b => Z.lor (Z.shiftl (s1 a) 2) (Z.shiftr (s2 a b) 4) =? a) 256%nat. Qed.

Lemma s2_low : forall x y, is_byte x -> is_byte y -> Z.land (s2 x y) 15 = Z.shiftr y 4.
Proof. by_table2 (fun a b => Z.land (s2 a b) 15 =? Z.shiftr b 4) 256%nat. Qed.

Lemma s3_high : forall x y, is_byte x -> is_byte y -> Z.shiftr (s3 x y) 2 = Z.land x 15.
Proof. by_table2 (fun b c => Z.shiftr (s3 b c) 2 =? Z.land b 15) 256%nat. Qed.

Lemma s3_low : forall x y, is_byte x -> is_byte y -> Z.land (s3 x y) 3 = Z.shiftr y 6.
Proof. by_table2 (fun b c => Z.land (s3 b c) 3 =? Z.shiftr c 6) 256%nat. Qed.

Lemma nibbles : forall x, is_byte x ->
  Z.lor (Z.shiftl (Z.shiftr x 4) 4) (Z.land x 15) = x.
Proof. by_table1 (fun b => Z.lor (Z.shiftl (Z.shiftr b 4) 4) (Z.land b 15) =? b) 256%nat. Qed.

Lemma byte3 : forall x, is_byte x -> Z.lor (Z.shiftl (Z.shiftr x 6) 6) (s4 x) = x.
Proof. by_table1 (fun c => Z.lor (Z.shiftl (Z.shiftr c 6) 6) (s4 c) =? c) 256%nat. Qed.

Lemma tail2 : forall x, is_byte x ->
  Z.shiftr (Z.shiftl (Z.land x 15) 2) 2 = Z.land x 15.
Proof. by_table1 (fun b => Z.shiftr (Z.shiftl (Z.land b 15) 2) 2 =? Z.land b 15) 256%nat. Qed.

Lemma tail1 : forall x, is_byte x ->
  Z.lor (Z.shiftl (s1 x) 2) (Z.shiftr (Z.shiftl (Z.land x 3) 4) 4) = x.
Proof.
  by_table1 (fun a => Z.lor (Z.shiftl (s1 a) 2) (Z.shiftr (Z.shiftl (Z.land a 3) 4) 4) =? a)
            256%nat.
Qed.

Definition sextet_ok (s : Z) : bool := (0 <=? s) && (s <? 64).

Lemma s1_ok : forall x, is_byte x -> sextet_ok (s1 x) = true.
Proof. intros x Hx. refine (check1 (fun a => sextet_ok (s1 a)) 256 _ x Hx). vm_compute; reflexivity. Qed.
Lemma s2_ok : forall x y, is_byte x -> is_byte y -> sextet_ok (s2 x y) = true.
Proof. intros x y Hx Hy. refine (check2 (fun a b => sextet_ok (s2 a b)) 256 _ x y Hx Hy). vm_compute; reflexivity. Qed.
Lemma s3_ok : forall x y, is_byte x -> is_byte y -> sextet_ok (s3 x y) = true.
Proof. intros x y Hx Hy. refine (check2 (fun a b => sextet_ok (s3 a b)) 256 _ x y Hx Hy). vm_compute; reflexivity. Qed.
Lemma s4_ok : forall x, is_byte x -> sextet_ok (s4 x) = true.
Proof. intros x Hx. refine (check1 (fun a => sextet_ok (s4 a)) 256 _ x Hx). vm_compute; reflexivity. Qed.
Lemma t2_ok : forall x, is_byte x -> sextet_ok (Z.shiftl (Z.land x 15) 2) = true.
Proof. intros x Hx. refine (check1 (fun a => sextet_ok (Z.shiftl (Z.land a 15) 2)) 256 _ x Hx). vm_compute; reflexivity. Qed.
Lemma t1_ok : forall x, is_byte x -> sextet_ok (Z.shiftl (Z.land x 3) 4) = true.
Proof. intros x Hx. refine (check1 (fun a => sextet_ok (Z.shiftl (Z.land a 3) 4)) 256 _ x Hx). vm_compute; reflexivity. Qed.

Lemma encode_split bs : b64_encode bs = map sextet_char (sextets bs) ++ pads bs.
Proof.
  revert bs; fix IH 1; intros [|a [|b [|c rest]]]; try reflexivity.
  cbn [b64_encode sextets map app]. rewrite IH. reflexivity.
Qed.

Lemma bytes_sextets_ok bs : Forall is_byte bs -> forallb sextet_ok (sextets bs) = true.
Proof.
  revert bs; fix IH 1; intros [|a [|b [|c rest]]] H; try reflexivity;
    repeat match goal with H : Forall _ (_ :: _) |- _ => inversion H; subst; clear H end;
    cbn [sextets forallb app].
  - now rewrite s1_ok, t1_ok.
  - now rewrite s1_ok, s2_ok, t2_ok.
  - rewrite s1_ok, s2_ok, s3_ok, s4_ok, IH; auto.
Qed.

Lemma sextets_length bs :
  (Nat.modulo (List.length (sextets bs)) 4 <> 1)%nat /\
  (Nat.modulo (List.length (sextets bs) + List.length (pads bs)) 4 = 0)%nat /\
  (pads bs = [] \/ pads bs = [pad] \/ pads bs = [pad; pad]).
Proof.
  revert bs; fix IH 1; intros [|a [|b [|c rest]]]; cbn [sextets pads List.length app];
    try (repeat split; auto; discriminate).
  destruct (IH rest) as (H1 & H2 & H3). repeat split; auto.
  - replace (S (S (S (S (List.length (sextets rest))))))
      with (List.length (sextets rest) + 1 * 4)%nat by lia.
    rewrite Nat.Div0.mod_add. exact H1.
  - replace (S (S (S (S (List.length (sextets rest))))) + List.length (pads rest))%nat
      with (List.length (sextets rest) + List.length (pads rest) + 1 * 4)%nat by lia.
    rewrite Nat.Div0.mod_add. exact H2.
Qed.

Lemma filter_no_ws l :
  Forall (fun c => is_ascii_whitespace c = false) l ->
  filter (fun c => negb (is_ascii_whitespace c)) l = l.
Proof.
  induction 1 as [|c l Hc _ IH]; [reflexivity|]. simpl. rewrite Hc, IH. reflexivity.
Qed.

Lemma sextet_ok_range s : sextet_ok s = true -> 0 <= s < 64.
Proof. unfold sextet_ok. rewrite andb_true_iff, Z.leb_le, Z.ltb_lt. tauto. Qed.

Lemma map_option_char_sextet sx :
  forallb sextet_ok sx = true -> map_option char_sextet (map sextet_char sx) = Some sx.
Proof.
  induction sx as [|s sx IH]; [reflexivity|]. simpl. rewrite andb_true_iff.
  intros [Hs Hsx]. rewrite char_sextet_char by (apply sextet_ok_range; exact Hs).
  rewrite IH by exact Hsx. reflexivity.
Qed.

Lemma strip_encoded sx p :
  forallb sextet_ok sx = true ->
  (Nat.modulo (List.length sx + List.length p) 4 = 0)%nat ->
  (p = [] \/ p = [pad] \/ p = [pad; pad]) ->
  strip_padding (map sextet_char sx ++ p) = map sextet_char sx.
Proof.
  intros Hok Hlen Hp. unfold strip_padding.
  rewrite length_app, length_map, Hlen. cbn [Nat.eqb].
  rewrite rev_app_distr, <- map_rev.
  assert (Hrev : forallb sextet_ok (rev sx) = true).
  { apply forallb_forall. intros x Hx. apply in_rev in Hx.
    rewrite forallb_forall in Hok. auto. }
  destruct Hp as [-> | [-> | ->]]; cbn [rev app].
  - rewrite !app_nil_r.
    destruct (rev sx) as [|y r] eqn:E; cbn [map]; [reflexivity|].
    simpl in Hrev. apply andb_true_iff in Hrev as [Hy _].
    rewrite sextet_char_not_pad by (apply sextet_ok_range; exact Hy).
    destruct (map sextet_char r); reflexivity.
  - destruct (rev sx) as [|y r] eqn:E.
    + cbn [map]. rewrite Z.eqb_refl.
      apply (f_equal (@rev Z)) in E. rewrite rev_involutive in E. now subst.
    + simpl in Hrev. apply andb_true_iff in Hrev as [Hy _]. cbn [map].
      rewrite Z.eqb_refl.
      rewrite sextet_char_not_pad by (apply sextet_ok_range; exact Hy).
      rewrite <- (rev_involutive sx), E. rewrite map_rev. reflexivity.
  - rewrite Z.eqb_refl. rewrite map_rev, rev_involutive. reflexivity.
Qed.

Lemma dec_sextets_sextets bs : Forall is_byte bs -> dec_sextets (sextets bs) = bs.
Proof.
  revert bs; fix IH 1; intros [|a [|b [|c rest]]] H; try reflexivity;
    repeat match goal with H : Forall _ (_ :: _) |- _ => inversion H; subst; clear H end;
    cbn [sextets dec_sextets app].
  - now rewrite tail1.
  - now rewrite byte1, s2_low, tail2, nibbles.
  - rewrite byte1, s2_low, s3_high, nibbles, s3_low, byte3, IH by assumption.
    reflexivity.
Qed.

Lemma map_mod_id m l : 0 < m -> Forall (fun x => 0 <= x < m) l ->
  map (fun x => x mod m) l = l.
Proof.
  intros Hm. induction 1 as [|x l Hx _ IH]; [reflexivity|]. simpl.
  rewrite Z.mod_small by lia. rewrite IH. reflexivity.
Qed.

(** Claim C8: for every byte array [b] (each element a byte, as a
    [Uint8Array] guarantees), [encode b] succeeds and [decode] of its result
    is [b] again: the base64 helpers of the audio bridge round-trip. *)
Theorem decode_encode_roundtrip (b : list Z) (Hb : Forall is_byte b) :
  exists s, encode b = Some s /\ decode s = Some b.
Proof.
  assert (Hb' : Forall (fun x => 0 <= x < 65536) b).
  { eapply Forall_impl; [|exact Hb]. unfold is_byte. intros; lia. }
  exists (b64_encode b). split.
  - unfold encode, btoa. rewrite map_mod_id by (lia || exact Hb').
    replace (forallb _ b) with true; [reflexivity|].
    symmetry. apply forallb_forall. intros x Hx.
    rewrite Forall_forall in Hb. specialize (Hb x Hx). unfold is_byte in Hb.
    apply andb_true_iff. rewrite Z.leb_le, Z.leb_le. lia.
  - pose proof (bytes_sextets_ok b Hb) as Hok.
    destruct (sextets_length b) as (Hl1 & Hl2 & Hp).
    unfold decode, atob. rewrite encode_split.
    rewrite filter_no_ws.
    2:{ apply Forall_app. split.
        - apply Forall_forall. intros c Hc. apply in_map_iff in Hc as (s & <- & Hs).
          rewrite forallb_forall in Hok.
          apply sextet_char_not_ws, sextet_ok_range, Hok, Hs.
        - destruct Hp as [-> | [-> | ->]]; repeat constructor. }
    rewrite strip_encoded by assumption.
    rewrite length_map.
    destruct (Nat.eqb_spec (Nat.modulo (List.length (sextets b)) 4) 1) as [E|_];
      [contradiction|].
    rewrite map_option_char_sextet by exact Hok.
    rewrite dec_sextets_sextets by exact Hb.
    rewrite map_mod_id by (lia || exact Hb). reflexivity.
Qed.

Lemma decode_encode_roundtrip_witness :
  Forall is_byte [0; 255; 128; 7] /\
  exists s, encode [0; 255; 128; 7] = Some s /\ decode s = Some [0; 255; 128; 7].
Proof.
  assert (H : Forall is_byte [0; 255; 128; 7]) by (repeat constructor; unfold is_byte; lia).
  split; [exact H|]. exact (decode_encode_roundtrip _ H).
Defined.

End Base64Facts.

Module ResampleTest.
Import Resample.
Example ds_48k : option_map (@List.length _) (downsample (ramp 4096) 48000%float 16000%float) = Some 1365%nat.
Proof. vm_compute. reflexivity. Qed.
Example ds_44k : option_map (@List.length _) (downsample (ramp 4096) 44100%float 16000%float) = Some 1486%nat.
Proof. vm_compute. reflexivity. Qed.
Example ds_14_3 : option_map (@List.length _) (downsample (ramp 35) 14%float 3%float) = Some 7%nat.
Proof. vm_compute. reflexivity. Qed.
Example ds_7_10 : option_map (fun r => nth 90 r 0%float) (downsample (ramp 70) 7%float 10%float) = Some 62%float.
Proof. vm_compute. reflexivity. Qed.
End ResampleTest.

Module ResampleFacts.
Import Resample.
Open Scope Z_scope.

Lemma set_nth_length {A} (l : list A) i v : List.length (set_nth l i v) = List.length l.
Proof.
  revert i; induction l as [|h t IH]; intros [|i]; simpl; auto.
Qed.

Lemma nth_set_nth {A} (l : list A) i j v d :
  (j < List.length l)%nat ->
  nth j (set_nth l i v) d = if Nat.eqb i j then v else nth j l d.
Proof.
  revert i j; induction l as [|h t IH]; intros i j Hj; simpl in Hj; [lia|].
  destruct i as [|i], j as [|j]; simpl; try reflexivity.
  apply IH. lia.
Qed.

Lemma fill_length buffer ratio i fuel result :
  List.length (fill buffer ratio i fuel result) = List.length result.
Proof.
  revert i result; induction fuel as [|f IH]; intros i result; simpl; auto.
  rewrite IH. apply set_nth_length.
Qed.

Lemma fill_nth buffer ratio fuel : forall i result j d,
  (j < List.length result)%nat ->
  nth j (fill buffer ratio i fuel result) d =
  if (Nat.leb i j) && (Nat.ltb j (i + fuel))
  then get buffer (js_floor (PrimFloat.mul (float_of_nat j) ratio))
  else nth j result d.
Proof.
  induction fuel as [|f IH]; intros i result j d Hj; simpl.
  - destruct (Nat.leb_spec i j); destruct (Nat.ltb_spec j (i + 0)); simpl; auto; lia.
  - rewrite IH by (rewrite set_nth_length; exact Hj).
    rewrite nth_set_nth by exact Hj.
    destruct (Nat.leb_spec (S i) j), (Nat.ltb_spec j (S i + f)),
             (Nat.eqb_spec i j), (Nat.leb_spec i j), (Nat.ltb_spec j (i + S f));
      simpl; subst; try reflexivity; lia.
Qed.

(** Claim C10, as stated (exact arithmetic), fails: with [inputRate = 14],
    [outputRate = 3] and 35 samples, [35 * 3 / 14 = 7.5] rounds to 8, but
    the double-precision quotient [35 / (14 / 3)] is just below 7.5 and the
    result has 7 samples. *)
Lemma downsample_exact_length_counterexample :
  ~ (exists result, downsample (ramp 35) 14%float 3%float = Some result /\
       Z.of_nat (List.length result) = exact_round_div (35 * 3) 14).
Proof.
  intros (result & E & L). vm_compute in E. injection E as <-.
  vm_compute in L. discriminate L.
Qed.

(** The same rounding also moves sample indices: with [inputRate = 7] and
    [outputRate = 10], sample 90 is read from index 62, not
    [floor(90 * 7 / 10) = 63]. *)
Lemma downsample_exact_index_differs :
  exists result, downsample (ramp 70) 7%float 10%float = Some result /\
    nth 90 result 0%float = get (ramp 70) (Some 62) /\
    exact_floor_div (90 * 7) 10 = 63.
Proof. eexists. split; [vm_compute; reflexivity|]. split; vm_compute; reflexivity. Qed.

(** Claim C10, amended: [downsample] returns the buffer itself when the
    rates are equal ([===]); otherwise, with [ratio = inputRate / outputRate]
    rounded to double precision, it returns a buffer of length
    [Math.round(buffer.length / ratio)] (double-precision quotient) whose
    [i]-th sample is [buffer[Math.floor(i * ratio)]] (double-precision
    product), NaN when that index is out of range. *)
Theorem downsample_double_precision buffer inputRate outputRate :
  (PrimFloat.eqb inputRate outputRate = true ->
     downsample buffer inputRate outputRate = Some buffer) /\
  (forall newLength,
     PrimFloat.eqb inputRate outputRate = false ->
     to_index (js_round (PrimFloat.div (float_of_nat (List.length buffer))
                                       (PrimFloat.div inputRate outputRate)))
       = Some newLength ->
     exists result, downsample buffer inputRate outputRate = Some result /\
       List.length result = newLength /\
       forall i, (i < newLength)%nat ->
         nth i result 0%float =
         get buffer (js_floor (PrimFloat.mul (float_of_nat i)
                                             (PrimFloat.div inputRate outputRate)))).
Proof.
  split.
  - intros E. unfold downsample. rewrite E. reflexivity.
  - intros n Hne Hn. unfold downsample. rewrite Hne. cbv zeta. rewrite Hn.
    eexists. split; [reflexivity|]. split.
    + rewrite fill_length. apply repeat_length.
    + intros i Hi. rewrite fill_nth by (rewrite repeat_length; exact Hi).
      destruct (Nat.leb_spec 0 i); [|lia]. destruct (Nat.ltb_spec i (0 + n)); [|lia].
      reflexivity.
Qed.

Lemma downsample_double_precision_witness :
  downsample (ramp 4) 16000%float 16000%float = Some (ramp 4) /\
  exists result, downsample (ramp 35) 14%float 3%float = Some result /\
    List.length result = 7%nat /\
    (forall i, (i < 7)%nat ->
       nth i result 0%float =
       get (ramp 35) (js_floor (PrimFloat.mul (float_of_nat i)
                                             (PrimFloat.div 14%float 3%float)))).
Proof.
  split.
  - apply (proj1 (downsample_double_precision (ramp 4) 16000%float 16000%float)).
    vm_compute. reflexivity.
  - apply (proj2 (downsample_double_precision (ramp 35) 14%float 3%float) 7%nat);
      vm_compute; reflexivity.
Defined.

End ResampleFacts.

Module LiveFacts.
Import Live.

Example connect_from_initial :
  connect initial None (mkConnectEnv (Some 7) false) =
  (mkLive (Some 0) (Some 1) (Some 7) false false false (Some 2) 3,
   [NewAudioContext 0; NewAudioContext 1; ResumeContext 0; ResumeContext 1;
    GetUserMedia None; StartLiveSession 2]).
Proof. reflexivity. Qed.

(** Claim C9: [connect] on a client whose [isConnected] is true returns at
    once: the state is unchanged and no effect happens (no audio context, no
    microphone request, no live session), whatever the device id and the
    outcomes the browser would give. *)
Theorem connect_when_connected_is_noop st audioDeviceId env :
  isConnected st = true -> connect st audioDeviceId env = (st, []).
Proof. intros H. unfold connect. rewrite H. reflexivity. Qed.

Lemma connect_when_connected_is_noop_witness :
  let st := fst (onOpen (fst (connect initial None (mkConnectEnv (Some 7) false)))) in
  isConnected st = true /\
  connect st (Some "mic-2"%string) (mkConnectEnv (Some 9) false) = (st, []).
Proof.
  cbv zeta. split; [reflexivity|]. apply connect_when_connected_is_noop. reflexivity.
Defined.

End LiveFacts.

Module ScenarioTest.
Import Client Scenarios.
Example t_joined : step (appState x_joined) = StMeeting. Proof. reflexivity. Qed.
Example t_in : ids (participants (appState x_in)) = ["gemini-ai"; "h"; "x"]%string. Proof. reflexivity. Qed.
Example t_sharing : screenStream (appState x_sharing) = Some 1. Proof. reflexivity. Qed.
Example t_kicked : step (appState x_kicked) = StLanding /\ stream_tracks (media x_kicked) 1 = screen
  /\ stream_tracks (media x_left) 1 = map stop_track screen.
Proof. split; [|split]; reflexivity. Qed.
Example t_ab : writes alpha_after = [] /\ writes beta_after = []. Proof. split; reflexivity. Qed.
(** [name.trim()] is empty for U+00A0, U+3000 and U+FEFF, not for a letter. *)
Example t_blank : blank "  　﻿	" = true /\ blank "  x" = false.
Proof. split; reflexivity. Qed.
End ScenarioTest.

Module ClientFacts.
Import Client Scenarios.
Open Scope string_scope.

(** *** Frame lemmas: what each world operation leaves alone *)

Lemma writes_setS cs w : writes (setS cs w) = writes w.
Proof. reflexivity. Qed.
Lemma writes_emit e w : writes (emit e w) = writes w.
Proof. reflexivity. Qed.
Lemma writes_on_stream o f w : writes (on_stream o f w) = writes w.
Proof. destruct o; reflexivity. Qed.
Lemma writes_live_disconnect w : writes (live_disconnect w) = writes w.
Proof. reflexivity. Qed.
Lemma writes_write op w : writes (write op w) = (writes w ++ [op])%list.
Proof. reflexivity. Qed.
Lemma me_setS cs w : mySessionId (setS cs w) = mySessionId w.
Proof. reflexivity. Qed.
Lemma me_emit e w : mySessionId (emit e w) = mySessionId w.
Proof. reflexivity. Qed.

#[local] Hint Rewrite writes_setS writes_emit writes_on_stream writes_live_disconnect
  writes_write me_setS me_emit : frame.

Lemma leaveMeeting_writes env w :
  writes (leaveMeeting env w) =
  (writes w ++ (if negb (String.eqb (meetingId env) "") && negb (String.eqb (mySessionId w) "")
                  && isAuthReady env
               then [OpRemove (meetingId env) (mySessionId w)] else []))%list.
Proof.
  unfold leaveMeeting. autorewrite with frame.
  destruct (_ && _ && _); autorewrite with frame; [reflexivity|symmetry; apply app_nil_r].
Qed.

Lemma prefix_app_l x a b : String.prefix (x ++ a) (x ++ b) = String.prefix a b.
Proof.
  induction x as [|c x IH]; [reflexivity|]. simpl.
  destruct (ascii_dec c c) as [_|n]; [exact IH|contradiction].
Qed.

(** A participant write of meeting [mid] is never a signalling write of
    the same meeting. *)
Lemma participant_path_not_signal mid key recipient :
  String.prefix (signal_prefix mid recipient) (participant_path mid key) = false.
Proof.
  unfold signal_prefix, participant_path.
  rewrite prefix_app_l, prefix_app_l. reflexivity.
Qed.

Lemma store_get_set s k v : store_get (store_set s k v) k = Some v.
Proof.
  induction s as [|[k' v'] s IH]; cbn.
  - unfold key_eqb. rewrite !String.eqb_refl. reflexivity.
  - destruct (key_eqb k k') eqn:E; cbn.
    + unfold key_eqb. rewrite !String.eqb_refl. reflexivity.
    + rewrite E. exact IH.
Qed.

Lemma store_get_set_other s k k' v :
  key_eqb k' k = false -> store_get (store_set s k v) k' = store_get s k'.
Proof.
  intros Hne. induction s as [|[k1 v1] s IH]; cbn.
  - rewrite Hne. reflexivity.
  - destruct (key_eqb k k1) eqn:E; cbn.
    + rewrite Hne. unfold key_eqb in E. apply andb_true_iff in E as [E1 E2].
      apply String.eqb_eq in E1, E2. destruct k as [x y], k1 as [x1 y1]; cbn in *.
      subst. unfold key_eqb in *; cbn in *. rewrite Hne. reflexivity.
    + destruct (key_eqb k' k1); [reflexivity|exact IH].
Qed.

(** *** Store, roster and media lemmas *)

Lemma key_eqb_true k k' : key_eqb k k' = true -> k = k'.
Proof.
  destruct k as [a b], k' as [a' b']. unfold key_eqb. cbn.
  rewrite andb_true_iff, !String.eqb_eq. intros [-> ->]. reflexivity.
Qed.

Lemma key_eqb_refl k : key_eqb k k = true.
Proof. unfold key_eqb. rewrite !String.eqb_refl. reflexivity. Qed.

Lemma store_get_remove s k : store_get (store_remove s k) k = None.
Proof.
  induction s as [|[k' v] s IH]; [reflexivity|]. unfold store_remove in *. cbn.
  destruct (key_eqb k k') eqn:E; cbn; [exact IH|].
  rewrite E. exact IH.
Qed.

Lemma store_get_in s k v : In (k, v) s -> exists v', store_get s k = Some v'.
Proof.
  induction s as [|[k' v'] s IH]; [intros []|]. intros [H|H]; cbn.
  - injection H as -> ->. rewrite key_eqb_refl. eexists; reflexivity.
  - destruct (key_eqb k k'); [eexists; reflexivity|]. exact (IH H).
Qed.

Lemma store_get_found s k v :
  store_get s k = Some v -> exists k', In (k', v) s /\ key_eqb k k' = true.
Proof.
  induction s as [|[k' v'] s IH]; [discriminate|]. cbn.
  destruct (key_eqb k k') eqn:E.
  - intros H. injection H as <-. exists k'. split; [left; reflexivity|exact E].
  - intros H. destruct (IH H) as [k1 [Hin Hk]]. exists k1. split; [right; exact Hin|exact Hk].
Qed.

Lemma In_insert_by {A} (lt : A -> A -> bool) (a x : A) l :
  In x (insert_by lt a l) <-> a = x \/ In x l.
Proof.
  induction l as [|y l IH]; cbn; [tauto|].
  destruct (lt a y); cbn; [tauto|]. rewrite IH. tauto.
Qed.

Lemma In_sort_by {A} (lt : A -> A -> bool) (x : A) l : In x (sort_by lt l) <-> In x l.
Proof.
  induction l as [|y l IH]; cbn; [tauto|]. rewrite In_insert_by, IH. tauto.
Qed.

Lemma In_roster_children s mid kv :
  In kv (roster_children s mid) <-> In kv s /\ fst (fst kv) = mid.
Proof.
  unfold roster_children.
  assert (Hk : In kv (filter (fun kv => String.eqb (fst (fst kv)) mid) s)
               <-> In kv s /\ fst (fst kv) = mid).
  { rewrite filter_In. split; intros [H1 H2]; split; auto;
      [apply String.eqb_eq | apply String.eqb_eq]; exact H2. }
  split.
  - intros H. apply in_app_or in H as [H|H].
    + apply In_sort_by, filter_In in H as [H _]. apply In_sort_by in H. apply Hk, H.
    + apply filter_In in H as [H _]. apply In_sort_by in H. apply Hk, H.
  - intros H. apply Hk in H. apply (In_sort_by (fun a b => (nameCompare (snd (fst a)) (snd (fst b)) <? 0)%Z)) in H.
    apply in_or_app.
    destruct (is_array_index (snd (fst kv))) eqn:E.
    + left. apply In_sort_by, filter_In. split; [exact H|exact E].
    + right. apply filter_In. split; [exact H|exact (f_equal negb E)].
Qed.

Lemma snapshot_none s mid :
  (forall key, store_get s (mid, key) = None) -> snapshot s mid = None.
Proof.
  intros H. unfold snapshot.
  destruct (roster_children s mid) as [|[[m' key] v] rest] eqn:E; [reflexivity|].
  assert (Hin : In ((m', key), v) (roster_children s mid)) by (rewrite E; left; reflexivity).
  apply In_roster_children in Hin as [Hin Heq]. cbn in Heq. subst m'.
  destruct (store_get_in _ _ _ Hin) as [v' Hv]. rewrite H in Hv. discriminate.
Qed.

Lemma snapshot_in s mid key v :
  store_get s (mid, key) = Some v -> exists R, snapshot s mid = Some R /\ In v R.
Proof.
  intros H. destruct (store_get_found _ _ _ H) as [[m' k'] [Hin Hk]].
  unfold key_eqb in Hk. cbn in Hk. apply andb_true_iff in Hk as [Hm _].
  apply String.eqb_eq in Hm. subst m'.
  assert (Hf : In ((mid, k'), v) (roster_children s mid))
    by (apply In_roster_children; split; [exact Hin|reflexivity]).
  assert (Hv : In v (map snd (roster_children s mid)))
    by (apply (in_map snd) in Hf; exact Hf).
  unfold snapshot. destruct (map snd (roster_children s mid)) as [|x rest]; [destruct Hv|].
  eexists. split; [reflexivity|exact Hv].
Qed.

Lemma snapshot_some s mid key v :
  store_get s (mid, key) = Some v -> snapshot s mid <> None.
Proof.
  intros H. destruct (snapshot_in _ _ _ _ H) as [R [HR _]]. rewrite HR. discriminate.
Qed.

Lemma stream_tracks_media_map m sid' sid f :
  stream_tracks (media_map m sid' f) sid
  = if Nat.eqb sid' sid then map f (stream_tracks m sid) else stream_tracks m sid.
Proof.
  unfold stream_tracks, media_map.
  induction m as [|[k ts] m IH]; cbn.
  - destruct (Nat.eqb sid' sid); reflexivity.
  - destruct (Nat.eqb_spec k sid') as [->|Hk]; cbn.
    + destruct (Nat.eqb_spec sid' sid) as [->|Hs]; [reflexivity|]. exact IH.
    + destruct (Nat.eqb_spec k sid) as [->|_]; [|exact IH].
      destruct (Nat.eqb_spec sid' sid) as [->|_]; [contradiction|reflexivity].
Qed.

Lemma media_map_app m1 m2 sid f :
  media_map (m1 ++ m2)%list sid f = (media_map m1 sid f ++ media_map m2 sid f)%list.
Proof. unfold media_map. apply map_app. Qed.

Lemma media_map_one k ts sid f :
  media_map [(k, ts)] sid f = [(k, if Nat.eqb k sid then map f ts else ts)].
Proof. unfold media_map. cbn. destruct (Nat.eqb k sid); reflexivity. Qed.

Lemma media_map_fresh m sid f :
  Forall (fun e => (fst e < sid)%nat) m -> media_map m sid f = m.
Proof.
  unfold media_map. induction 1 as [|[k ts] m Hk _ IH]; [reflexivity|]. cbn in *.
  rewrite IH. destruct (Nat.eqb_spec k sid); [lia|reflexivity].
Qed.

Lemma stopped_after_stop m sid' sid :
  Forall (fun t => stopped t = true) (stream_tracks m sid) \/ sid' = sid ->
  Forall (fun t => stopped t = true) (stream_tracks (media_map m sid' stop_track) sid).
Proof.
  intros H. rewrite stream_tracks_media_map.
  destruct (Nat.eqb_spec sid' sid) as [_|Hne].
  - apply Forall_forall. intros t Ht. apply in_map_iff in Ht as (t' & <- & _). reflexivity.
  - destruct H as [H|H]; [exact H|contradiction].
Qed.

Lemma live_disconnect_clean l :
  Live.isConnected (fst (Live.disconnect l)) = false /\
  Live.sessionPromise (fst (Live.disconnect l)) = None.
Proof.
  unfold Live.disconnect.
  destruct (Live.isConnected l) eqn:Ec, (Live.sessionPromise l) eqn:Es; cbn;
    split; assumption || reflexivity.
Qed.

Lemma find_existsb {A} (f : A -> bool) l x : find f l = Some x -> existsb f l = true.
Proof.
  intros H. apply find_some in H as [Hin Hx]. apply existsb_exists. exists x. auto.
Qed.

Lemma enabled_set_enabled2 t b1 b2 :
  kind (set_enabled Video b2 (set_enabled Audio b1 t)) = kind t /\
  enabled (set_enabled Video b2 (set_enabled Audio b1 t))
  = match kind t with Audio => b1 | Video => b2 end.
Proof. destruct t as [[] e s d]; split; reflexivity. Qed.

(** *** The roster callback and the local value event *)

Lemma tracks_media_map (Q : Track -> Prop) f m sid' sid :
  (forall t, Q t -> Q (f t)) -> (forall t, In t (stream_tracks m sid) -> Q t) ->
  forall t, In t (stream_tracks (media_map m sid' f) sid) -> Q t.
Proof.
  intros Hf H t. rewrite stream_tracks_media_map. destruct (Nat.eqb sid' sid).
  - intros Ht. apply in_map_iff in Ht as (t' & <- & Ht'). apply Hf, H, Ht'.
  - apply H.
Qed.

Lemma tracks_media_map_all (Q : Track -> Prop) f m sid :
  (forall t, Q (f t)) -> forall t, In t (stream_tracks (media_map m sid f) sid) -> Q t.
Proof.
  intros Hf t. rewrite stream_tracks_media_map, Nat.eqb_refl.
  intros Ht. apply in_map_iff in Ht as (t' & <- & _). apply Hf.
Qed.

Lemma tracks_on_stream (Q : Track -> Prop) o f w sid :
  (forall t, Q t -> Q (f t)) -> (forall t, In t (stream_tracks (media w) sid) -> Q t) ->
  forall t, In t (stream_tracks (media (on_stream o f w)) sid) -> Q t.
Proof. destruct o as [s'|]; cbn [on_stream media]; [apply tracks_media_map|auto]. Qed.

(** The callback touches the tracks only by [enabled = false] on audio
    tracks and by [stop()]. *)
Lemma onRosterValue_tracks (Q : Track -> Prop) env data w sid :
  (forall t, Q t -> Q (set_enabled Audio false t)) -> (forall t, Q t -> Q (stop_track t)) ->
  (forall t, In t (stream_tracks (media w) sid) -> Q t) ->
  forall t, In t (stream_tracks (media (onRosterValue env data w)) sid) -> Q t.
Proof.
  intros Ha Hs H. unfold onRosterValue. destruct data as [R|]; [|exact H].
  destruct (negb (existsb (id_is (mySessionId w)) R)).
  - unfold leaveMeeting. cbn [media live_disconnect setS].
    apply tracks_on_stream; [exact Hs|]. apply tracks_on_stream; [exact Hs|].
    cbn [media setS].
    destruct (negb (String.eqb (meetingId env) "")
              && negb (String.eqb (mySessionId (emit (Alert "removed") w)) "")
              && isAuthReady env); exact H.
  - cbn [media setS].
    destruct (find (id_is (mySessionId w)) R) as [myData|].
    + destruct (truthy (P.isMuted myData) && negb (isMuted env)).
      * apply tracks_on_stream; [exact Ha|]. cbn [media setS].
        destruct (find (fun p => truthy (P.isScreenSharing p)) R), (str_truthy (activeScreenId env));
          exact H.
      * destruct (find (fun p => truthy (P.isScreenSharing p)) R), (str_truthy (activeScreenId env));
          exact H.
    + destruct (find (fun p => truthy (P.isScreenSharing p)) R), (str_truthy (activeScreenId env));
        exact H.
Qed.

Lemma isVideoOff_setS cs w :
  (forall c, In c cs -> match c with SetIsVideoOff _ => False | _ => True end) ->
  isVideoOff (appState (setS cs w)) = isVideoOff (appState w).
Proof.
  unfold setS. cbn [appState]. generalize (appState w). clear w.
  induction cs as [|c cs IH]; intros a Hc; [reflexivity|]. cbn [fold_left].
  rewrite IH; [|intros c' Hc'; apply Hc; right; exact Hc'].
  assert (Hc0 := Hc c (or_introl eq_refl)).
  destruct a, c; cbn; solve [reflexivity | destruct Hc0].
Qed.

Ltac no_video_off := intros ? Hin; cbn in Hin; intuition (subst; exact I).

Lemma onRosterValue_isVideoOff env data w :
  isVideoOff (appState (onRosterValue env data w)) = isVideoOff (appState w).
Proof.
  unfold onRosterValue. destruct data as [R|]; [|apply isVideoOff_setS; no_video_off].
  destruct (negb (existsb (id_is (mySessionId w)) R)).
  - unfold leaveMeeting. cbn [appState live_disconnect].
    rewrite isVideoOff_setS by no_video_off.
    destruct (screenStream env); cbn [on_stream appState];
      (destruct (localStream env); cbn [on_stream appState]);
      rewrite isVideoOff_setS by no_video_off;
      destruct (negb (String.eqb (meetingId env) "")
                && negb (String.eqb (mySessionId (emit (Alert "removed") w)) "")
                && isAuthReady env); reflexivity.
  - rewrite isVideoOff_setS by no_video_off.
    assert (H1 : isVideoOff (appState
                   match find (fun p => truthy (P.isScreenSharing p)) R,
                         str_truthy (activeScreenId env) with
                   | Some _, false => w
                   | None, true => setS [SetActiveScreenId (const_id None); SetViewMode GALLERY] w
                   | _, _ => w
                   end) = isVideoOff (appState w)).
    { destruct (find (fun p => truthy (P.isScreenSharing p)) R), (str_truthy (activeScreenId env));
        try reflexivity; apply isVideoOff_setS; no_video_off. }
    destruct (find (id_is (mySessionId w)) R) as [myData|]; [|exact H1].
    destruct (truthy (P.isMuted myData) && negb (isMuted env)); [|exact H1].
    destruct (localStream env); cbn [on_stream appState];
      rewrite isVideoOff_setS by no_video_off; exact H1.
Qed.

(** A snapshot that still lists the client: the callback writes nothing. *)
Lemma onRosterValue_store_listed env R w :
  existsb (id_is (mySessionId w)) R = true -> store (onRosterValue env (Some R) w) = store w.
Proof.
  intros Hl. unfold onRosterValue. rewrite Hl. cbn [negb store setS].
  assert (H1 : store match find (fun p => truthy (P.isScreenSharing p)) R,
                         str_truthy (activeScreenId env) with
                   | Some _, false => w
                   | None, true => setS [SetActiveScreenId (const_id None); SetViewMode GALLERY] w
                   | _, _ => w
                   end = store w).
  { destruct (find (fun p => truthy (P.isScreenSharing p)) R), (str_truthy (activeScreenId env));
      reflexivity. }
  destruct (find (id_is (mySessionId w)) R) as [myData|]; [|exact H1].
  destruct (truthy (P.isMuted myData) && negb (isMuted env)); [|exact H1].
  destruct (localStream env); exact H1.
Qed.


Lemma local_value_event_cases sub before after :
  local_value_event sub before after = after \/
  exists e, sub = Some e /\ local_value_event sub before after = deliver e after.
Proof.
  destruct sub as [e|]; cbn; [|left; reflexivity].
  destruct (opt_eqb _ _ _); [left; reflexivity|right; exists e; split; reflexivity].
Qed.

(** After an update of the client's own record, which carries its id, the
    local value event leaves the record as written. *)
Lemma own_update_survives sub env fs before w r :
  (forall e, sub = Some e -> meetingId e = meetingId env) ->
  store_get (store w) (meetingId env, mySessionId w) = Some r ->
  P.id r = Some (mySessionId w) ->
  (forall p, P.id (fold_left apply_field fs p) = P.id p) ->
  store_get (store (local_value_event sub before (updateMyStatus env fs w)))
            (meetingId env, mySessionId w) = Some (fold_left apply_field fs r).
Proof.
  intros Hsub Hr Hid Hfs.
  assert (Hw : store_get (store (updateMyStatus env fs w)) (meetingId env, mySessionId w)
               = Some (fold_left apply_field fs r)).
  { cbn [updateMyStatus write store apply_op]. rewrite Hr. apply store_get_set. }
  destruct (local_value_event_cases sub before (updateMyStatus env fs w)) as [->|[e [-> ->]]];
    [exact Hw|].
  unfold deliver. rewrite (Hsub e eq_refl).
  destruct (snapshot_in _ _ _ _ Hw) as [R [HR Hin]]. rewrite HR.
  rewrite onRosterValue_store_listed; [exact Hw|].
  apply existsb_exists. exists (fold_left apply_field fs r). split; [exact Hin|].
  unfold id_is. rewrite Hfs, Hid. cbn. apply String.eqb_refl.
Qed.

(** Claim C1, as stated, fails: two clients "alpha" and "beta" that process
    the same roster snapshot at the same moment send no offer at all, in
    either direction. *)
Lemma simultaneous_join_sends_no_offer :
  (offers_sent "m2" "beta" (writes alpha_after)
   + offers_sent "m2" "alpha" (writes beta_after))%nat <> 1%nat.
Proof. vm_compute. discriminate. Qed.

(** Claim C1, amended: a roster pass sends no offer. The only write the
    [onValue] callback can issue is the removal of the client's own record
    (when the snapshot no longer lists it), so no signalling write to any
    peer of the meeting is ever made and no tie-break exists. *)
Theorem roster_pass_sends_no_offer env data w :
  exists fresh_writes,
    writes (onRosterValue env data w) = (writes w ++ fresh_writes)%list /\
    Forall (fun op => op = OpRemove (meetingId env) (mySessionId w)) fresh_writes /\
    forall recipient, offers_sent (meetingId env) recipient fresh_writes = 0%nat.
Proof.
  assert (Hnone : forall recipient, offers_sent (meetingId env) recipient [] = 0%nat)
    by reflexivity.
  assert (Hrem : forall recipient,
             offers_sent (meetingId env) recipient
                         [OpRemove (meetingId env) (mySessionId w)] = 0%nat).
  { intros r. unfold offers_sent. cbn [filter op_path]. rewrite participant_path_not_signal. reflexivity. }
  unfold onRosterValue. destruct data as [R|].
  - destruct (negb (existsb (id_is (mySessionId w)) R)).
    + rewrite leaveMeeting_writes. autorewrite with frame.
      destruct (_ && _ && _); eexists; (split; [reflexivity|]); split; auto.
    + exists []. rewrite app_nil_r. split; [|split; auto].
      destruct (find (fun p => truthy (P.isScreenSharing p)) R);
        destruct (str_truthy (activeScreenId env));
        destruct (find (id_is (mySessionId w)) R) as [d|];
        try destruct (truthy (P.isMuted d) && negb (isMuted env));
        destruct (localStream env); reflexivity.
  - exists []. rewrite app_nil_r. split; [reflexivity|split; auto].
Qed.

(** *** The roster kept by the client *)

Lemma participants_setS_last ps w :
  participants (appState (setS [SetParticipants ps] w)) = ps.
Proof. destruct w as [[] ? ? ? ? ? ? ?]; reflexivity. Qed.

Lemma media_map_idem m sid f :
  (forall t, f (f t) = f t) -> media_map (media_map m sid f) sid f = media_map m sid f.
Proof.
  intros Hf. unfold media_map. rewrite map_map. apply map_ext. intros [k ts]. cbn.
  destruct (Nat.eqb k sid) eqn:E; cbn; rewrite ?E; [|reflexivity].
  rewrite map_map. f_equal. apply map_ext. exact Hf.
Qed.

Lemma set_enabled_idem k b t : set_enabled k b (set_enabled k b t) = set_enabled k b t.
Proof. destruct t as [[] ? ? ?], k, b; reflexivity. Qed.

(** Claim C2, as stated, fails: the client keeps no peer-connection set;
    what it keeps is the full roster list of the snapshot, in key order,
    which for client "x" in meeting "m1" lists the AI participant and "x"
    itself besides the host, while [roster - {self, agents}] is the host
    alone. *)
Lemma roster_kept_includes_self_and_agent :
  ids (participants (appState x_in)) = ["gemini-ai"; "h"; "x"] /\
  roster_minus_self_agents "x" (participants (appState x_in)) = ["h"] /\
  ids (participants (appState x_in))
    <> roster_minus_self_agents "x" (participants (appState x_in)).
Proof. vm_compute. split; [reflexivity|split; [reflexivity|discriminate]]. Qed.

(** Claim C2, amended: whenever a roster snapshot [R] still lists the client,
    the [onValue] pass makes the client's participant list exactly [R] (self
    and AI participant included; only the last snapshot counts, whatever
    came before), and running the pass again on the same snapshot changes
    nothing in the whole client world. *)
Theorem roster_pass_sets_roster_idempotent env R w :
  existsb (id_is (mySessionId w)) R = true ->
  participants (appState (onRosterValue env (Some R) w)) = R /\
  onRosterValue env (Some R) (onRosterValue env (Some R) w) = onRosterValue env (Some R) w.
Proof.
  destruct w as [a st wr m l fr u me]. cbn [mySessionId]. intros Hin.
  split.
  - unfold onRosterValue; cbn [mySessionId]; rewrite Hin; cbn [negb].
    apply participants_setS_last.
  - unfold onRosterValue at 2 3. cbn [mySessionId]. rewrite Hin. cbn [negb].
    destruct (find (fun p => truthy (P.isScreenSharing p)) R) eqn:E1;
      destruct (str_truthy (activeScreenId env)) eqn:E2;
      destruct (find (id_is me) R) as [d|] eqn:E3;
      try destruct (truthy (P.isMuted d) && negb (isMuted env)) eqn:E4;
      destruct (localStream env) as [sid|] eqn:E5;
      unfold onRosterValue; cbn [mySessionId setS on_stream]; rewrite Hin; cbn [negb];
      rewrite ?E1, ?E2, ?E3, ?E4, ?E5; cbn [setS on_stream appState store writes media live
                                            fresh ui mySessionId];
      rewrite ?media_map_idem by apply set_enabled_idem;
      destruct a; reflexivity.
Qed.

(** A concrete pass: client "x" receiving the roster of meeting "m1". *)
Lemma roster_pass_sets_roster_idempotent_witness :
  existsb (id_is (mySessionId x_joined)) (participants (appState x_in)) = true /\
  participants (appState (onRosterValue x_env (Some (participants (appState x_in))) x_joined))
    = participants (appState x_in).
Proof.
  assert (H : existsb (id_is (mySessionId x_joined)) (participants (appState x_in)) = true)
    by (vm_compute; reflexivity).
  split; [exact H|].
  exact (proj1 (roster_pass_sets_roster_idempotent x_env _ x_joined H)).
Defined.

(** *** Screen sharing *)

(** Claim C3, as stated, fails: once client "x" shares its screen, its
    camera stream and the new screen stream both carry a live, enabled
    video track. *)
Lemma screen_share_two_video_sources :
  localStream (appState x_sharing) = Some 0 /\
  screenStream (appState x_sharing) = Some 1 /\
  active_video_sources (appState x_sharing) (media x_sharing) = 2%nat.
Proof. vm_compute. split; [reflexivity|split; reflexivity]. Qed.

Lemma view_setters_keep_streams cs :
  Forall (fun c => match c with SetActiveScreenId _ | SetViewMode _ => True | _ => False end) cs ->
  forall a0, localStream (fold_left apply_set cs a0) = localStream a0 /\
             screenStream (fold_left apply_set cs a0) = screenStream a0.
Proof.
  induction 1 as [|c cs' Hc _ IH]; intros a0; [split; reflexivity|].
  cbn [fold_left]. destruct (IH (apply_set a0 c)) as [IH1 IH2].
  rewrite IH1, IH2. destruct c; try contradiction; destruct a0; split; reflexivity.
Qed.

(** Claim C3, amended: [toggleScreenShare] does no substitution. Starting a
    share appends a new screen stream and leaves the camera stream and
    [localStream] as they were; stopping a share stops the tracks of the
    screen stream only, again leaving [localStream] alone. Either way the
    flag [isScreenSharing] is written to the client's own record. *)
Theorem screen_share_separate_stream env tracks w env2 sid display w2 :
  screenStream env = None ->
  existsb (fun t => kind_eqb (kind t) Video) tracks = true ->
  screenStream env2 = Some sid ->
  media (toggleScreenShare env (Some tracks) w) = (media w ++ [(fresh w, tracks)])%list /\
  localStream (appState (toggleScreenShare env (Some tracks) w)) = localStream (appState w) /\
  screenStream (appState (toggleScreenShare env (Some tracks) w)) = Some (fresh w) /\
  writes (toggleScreenShare env (Some tracks) w)
    = (writes w ++ [OpUpdate (meetingId env) (mySessionId w) [FIsScreenSharing true]])%list /\
  media (toggleScreenShare env2 display w2) = media_map (media w2) sid stop_track /\
  localStream (appState (toggleScreenShare env2 display w2)) = localStream (appState w2) /\
  screenStream (appState (toggleScreenShare env2 display w2)) = None /\
  writes (toggleScreenShare env2 display w2)
    = (writes w2 ++ [OpUpdate (meetingId env2) (mySessionId w2) [FIsScreenSharing false]])%list.
Proof.
  intros H1 H2 H3.
  assert (Start : toggleScreenShare env (Some tracks) w
                  = updateMyStatus env [FIsScreenSharing true]
                      (setS [SetScreenStream (Some (fresh w));
                             SetActiveScreenId (const_id (Some (mySessionId w)));
                             SetViewMode SCREEN_SHARE] (snd (new_stream tracks w)))).
  { unfold toggleScreenShare. rewrite H1. cbn [new_stream fst snd mySessionId].
    rewrite H2. reflexivity. }
  assert (Stop : exists cs, toggleScreenShare env2 display w2
                  = updateMyStatus env2 [FIsScreenSharing false]
                      (setS (SetScreenStream None :: cs) (on_stream (Some sid) stop_track w2))
                 /\ Forall (fun c => match c with SetActiveScreenId _ | SetViewMode _ => True
                                              | _ => False end) cs).
  { unfold toggleScreenShare. rewrite H3.
    destruct (opt_str_eqb (activeScreenId env2) (Some (mySessionId w2))).
    - eexists. split; [reflexivity|]. repeat constructor.
    - exists []. split; [reflexivity|constructor]. }
  destruct Stop as [cs [Stop Hcs]].
  rewrite Start, Stop.
  destruct w as [a st wr m l fr u me], w2 as [a2 st2 wr2 m2 l2 fr2 u2 me2].
  cbn [updateMyStatus write setS on_stream new_stream fst snd appState store writes media
       live fresh ui mySessionId fold_left].
  destruct (view_setters_keep_streams cs Hcs (apply_set a2 (SetScreenStream None))) as [K1 K2].
  rewrite K1, K2. destruct a, a2. repeat split; reflexivity.
Qed.

(** Starting and then stopping the share of client "x". *)
Lemma screen_share_separate_stream_witness :
  screenStream (appState x_in) = None /\
  existsb (fun t => kind_eqb (kind t) Video) screen = true /\
  screenStream (appState x_sharing) = Some 1 /\
  localStream (appState (toggleScreenShare (appState x_sharing) None x_sharing))
    = localStream (appState x_sharing).
Proof.
  assert (H1 : screenStream (appState x_in) = None) by (vm_compute; reflexivity).
  assert (H2 : existsb (fun t => kind_eqb (kind t) Video) screen = true) by reflexivity.
  assert (H3 : screenStream (appState x_sharing) = Some 1) by (vm_compute; reflexivity).
  split; [exact H1|split; [exact H2|split; [exact H3|]]].
  exact (proj1 (proj2 (proj2 (proj2 (proj2 (proj2
           (screen_share_separate_stream (appState x_in) screen x_in (appState x_sharing) 1
              None x_sharing H1 H2 H3))))))).
Defined.

(** *** Moderation *)




(** *** Mute and camera toggles *)

(** Claim C5: [toggleMute] sets [track.enabled = !isMuted] from the render's
    [isMuted], i.e. to the NEW muted flag, and [toggleVideo] likewise sets
    the video tracks to the new [isVideoOff]; each then writes the new flag
    to the client's own record. Firebase raises the roster [value] event
    inside that [update] when a roster callback is subscribed (on the
    meeting screen; [sub] is its render, of the same meeting); it runs the
    callback of an earlier render, which may only disable audio tracks,
    stop tracks and set [isMuted] to true. Hence, whatever [sub]:
    - after the camera toggle each video track is enabled exactly when the
      camera is off;
    - after unmuting every audio track is disabled;
    - with no subscription (the lobby), after muting [isMuted] is true and
      every audio track is enabled;
    - the own record, when it exists and carries the client's id, holds the
      new flag. *)
Theorem toggles_set_enabled_to_new_flag sub env w sid :
  localStream env = Some sid ->
  isVideoOff (appState (local_value_event sub w (toggleVideo env w))) = negb (isVideoOff env) /\
  (forall t, In t (stream_tracks (media (local_value_event sub w (toggleVideo env w))) sid) ->
     kind t = Video ->
     enabled t = isVideoOff (appState (local_value_event sub w (toggleVideo env w)))) /\
  (isMuted env = true ->
     forall t, In t (stream_tracks (media (local_value_event sub w (toggleMute env w))) sid) ->
     kind t = Audio -> enabled t = false) /\
  (sub = None -> isMuted env = false ->
     isMuted (appState (local_value_event sub w (toggleMute env w))) = true /\
     forall t, In t (stream_tracks (media (local_value_event sub w (toggleMute env w))) sid) ->
     kind t = Audio -> enabled t = true) /\
  ((forall e, sub = Some e -> meetingId e = meetingId env) ->
   forall r, store_get (store w) (meetingId env, mySessionId w) = Some r ->
   P.id r = Some (mySessionId w) ->
   (exists r', store_get (store (local_value_event sub w (toggleVideo env w)))
                         (meetingId env, mySessionId w) = Some r' /\
               P.isVideoOff r' = Some (negb (isVideoOff env))) /\
   (exists r', store_get (store (local_value_event sub w (toggleMute env w)))
                         (meetingId env, mySessionId w) = Some r' /\
               P.isMuted r' = Some (negb (isMuted env)))).
Proof.
  intros Hs.
  assert (Hv : isVideoOff (appState (local_value_event sub w (toggleVideo env w)))
               = negb (isVideoOff env)).
  { assert (H0 : isVideoOff (appState (toggleVideo env w)) = negb (isVideoOff env)).
    { unfold toggleVideo. rewrite Hs. destruct w as [a st wr m l fr u me]. destruct a.
      reflexivity. }
    destruct (local_value_event_cases sub w (toggleVideo env w)) as [->|[e [_ ->]]];
      [exact H0|]. unfold deliver. rewrite onRosterValue_isVideoOff. exact H0. }
  split; [exact Hv|].
  split.
  { rewrite Hv. intros t.
    pose (Q := fun t : Track => kind t = Video -> enabled t = negb (isVideoOff env)).
    assert (HQ : forall t, In t (stream_tracks (media (toggleVideo env w)) sid) -> Q t).
    { unfold toggleVideo. rewrite Hs. cbn [updateMyStatus write setS on_stream media].
      apply tracks_media_map_all.
      intros t'. unfold set_enabled. destruct t' as [[] e' st' d]; try unfold Q; cbn;
        intros Hk; first [reflexivity|discriminate]. }
    destruct (local_value_event_cases sub w (toggleVideo env w)) as [->|[e [_ ->]]];
      [exact (HQ t)|].
    apply (onRosterValue_tracks Q); [| |exact HQ].
    - intros [[] e' st' d] Ht; unfold Q in *; cbn in *; intros Hk;
      first [discriminate | exact (Ht Hk) | reflexivity].
    - intros [[] e' st' d] Ht; unfold Q in *; cbn in *; intros Hk;
      first [discriminate | exact (Ht Hk) | reflexivity]. }
  split.
  { intros Hm t.
    pose (Q := fun t : Track => kind t = Audio -> enabled t = false).
    assert (HQ : forall t, In t (stream_tracks (media (toggleMute env w)) sid) -> Q t).
    { unfold toggleMute. rewrite Hs, Hm. cbn [updateMyStatus write setS on_stream media negb].
      apply tracks_media_map_all.
      intros t'. unfold set_enabled. destruct t' as [[] e' st' d]; try unfold Q; cbn;
        intros Hk; first [reflexivity|discriminate]. }
    destruct (local_value_event_cases sub w (toggleMute env w)) as [->|[e [_ ->]]];
      [exact (HQ t)|].
    apply (onRosterValue_tracks Q); [| |exact HQ].
    - intros [[] e' st' d] Ht; unfold Q in *; cbn in *; intros Hk;
      first [discriminate | exact (Ht Hk) | reflexivity].
    - intros [[] e' st' d] Ht; unfold Q in *; cbn in *; intros Hk;
      first [discriminate | exact (Ht Hk) | reflexivity]. }
  split.
  { intros -> Hm. cbn [local_value_event]. unfold toggleMute. rewrite Hs, Hm.
    split; [destruct w as [a st wr m l fr u me]; destruct a; reflexivity|].
    cbn [updateMyStatus write setS on_stream media negb].
    intros t. apply (tracks_media_map_all (fun t => kind t = Audio -> enabled t = true)).
    intros t'. unfold set_enabled. destruct t' as [[] e' st' d]; cbn;
      intros Hk; first [reflexivity|discriminate]. }
  intros Hsub r Hr Hid. unfold toggleVideo, toggleMute. rewrite Hs. split.
  - eexists. split.
    + exact (own_update_survives sub env [FIsVideoOff (negb (isVideoOff env))] w
               (setS [SetIsVideoOff (negb (isVideoOff env))]
                     (on_stream (Some sid) (set_enabled Video (negb (isVideoOff env))) w))
               r Hsub Hr Hid (fun p => eq_refl)).
    + reflexivity.
  - eexists. split.
    + exact (own_update_survives sub env [FIsMuted (negb (isMuted env))] w
               (setS [SetIsMuted (negb (isMuted env))]
                     (on_stream (Some sid) (set_enabled Audio (negb (isMuted env))) w))
               r Hsub Hr Hid (fun p => eq_refl)).
    + reflexivity.
Qed.

(** Client "x", in meeting "m1" with a live camera, turns its camera off:
    the value event runs the callback of its first meeting render; the
    camera track stays enabled while the client and its record show the
    camera off. *)
Lemma toggles_set_enabled_to_new_flag_witness :
  localStream (appState x_in) = Some 0 /\
  isVideoOff (appState (local_value_event (Some x_env) x_in (toggleVideo (appState x_in) x_in)))
    = true /\
  In (mkTrack Video true false "cam-1")
     (stream_tracks (media (local_value_event (Some x_env) x_in
                                              (toggleVideo (appState x_in) x_in))) 0) /\
  option_map P.isVideoOff
    (store_get (store (local_value_event (Some x_env) x_in (toggleVideo (appState x_in) x_in)))
               ("m1", "x"))
    = Some (Some true).
Proof.
  assert (H : localStream (appState x_in) = Some 0) by (vm_compute; reflexivity).
  destruct (toggles_set_enabled_to_new_flag (Some x_env) (appState x_in) x_in 0 H)
    as [Hv [Ht _]].
  split; [exact H|].
  split; [rewrite Hv; vm_compute; reflexivity|].
  split; [vm_compute; right; left; reflexivity|].
  vm_compute. reflexivity.
Defined.

(** *** Removal by the host *)

(** Claim C6: after the host removes "x", the record of "x" is gone and the
    other clients' roster lacks "x"; the callback of "x" sees itself absent,
    alerts and resets, but it was created in the render that subscribed,
    before "x" shared its screen, so its [leaveMeeting] stops the camera and
    not the screen capture, which stays live. The Leave button of the
    current render stops it. *)
Theorem kicked_client_keeps_screen_capture :
  store_get (store after_kick) ("m1", "x") = None /\
  snapshot (store after_kick) "m1" <> None /\
  (match snapshot (store after_kick) "m1" with
   | Some R => existsb (id_is "x") R = false
   | None => True
   end) /\
  has_alert (ui x_kicked) = true /\
  step (appState x_kicked) = StLanding /\
  participants (appState x_kicked) = [] /\
  stream_tracks (media x_kicked) 0 = map stop_track cam /\
  stream_tracks (media x_kicked) 1 = screen /\
  existsb (fun t => negb (stopped t)) (stream_tracks (media x_kicked) 1) = true /\
  stream_tracks (media x_left) 1 = map stop_track screen.
Proof. vm_compute. repeat split; try reflexivity; discriminate. Qed.

(** *** Joining without media *)

(** Claim C7, as stated, fails: client "y", whose [getUserMedia] fails,
    joins the meeting with no stream at all and gets no alert: the failure
    only goes to the console. *)
Lemma join_without_media_no_notice :
  step (appState y_joined) = StMeeting /\
  localStream (appState y_joined) = None /\
  has_alert (ui y_joined) = false /\
  ui y_joined = [ConsoleError "Error starting meeting stream"].
Proof. vm_compute. repeat split; reflexivity. Qed.

(** Claim C7, amended: when the database write succeeds and
    [getUserMedia] fails, joining completes: the client's record is in the
    store and the client is on the meeting screen, with the stream it had
    before (none if it had none); the failure is written to the console
    (if a stream was needed) and no alert is shown. *)
Theorem join_completes_without_media env w :
  isAuthReady env = true ->
  mySessionId w <> "gemini-ai" ->
  let w' := startMeeting env DbOk None w in
  store_get (store w') (meetingId env, mySessionId w)
    = Some (P.mk (Some (mySessionId w)) (Some (userName env)) (Some "") (Some (isMuted env))
                 (Some (isVideoOff env)) (Some false) None (Some (localRole env))) /\
  step (appState w') = StMeeting /\
  localStream (appState w') = localStream (appState w) /\
  (ui w' = ui w \/ ui w' = (ui w ++ [ConsoleError "Error starting meeting stream"])%list).
Proof.
  intros Hready Hme. cbv zeta. unfold startMeeting. rewrite Hready. cbn [negb]. cbv zeta.
  set (u := P.mk _ _ _ _ _ _ _ _).
  set (w1 := write (OpSet (meetingId env) (mySessionId w) u) w).
  assert (G1 : store_get (store w1) (meetingId env, mySessionId w) = Some u)
    by apply store_get_set.
  set (w2 := if role_eqb (localRole env) Host then _ else w1).
  assert (G2 : store_get (store w2) (meetingId env, mySessionId w) = Some u /\
               appState w2 = appState w /\ ui w2 = ui w /\ mySessionId w2 = mySessionId w).
  { subst w2. destruct (role_eqb (localRole env) Host); [|repeat split; assumption].
    destruct (store_get (store w1) (meetingId env, "gemini-ai")); [repeat split; assumption|].
    repeat split; try reflexivity. cbn [write store apply_op].
    rewrite store_get_set_other; [exact G1|].
    unfold key_eqb; cbn [fst snd]. rewrite String.eqb_refl, andb_true_l.
    apply String.eqb_neq. exact Hme. }
  destruct G2 as [G2 [A2 [U2 M2]]].
  clearbody w2 w1.
  destruct w2 as [a2 st2 wr2 m2 l2 fr2 u2 me2]; cbn in A2, U2, M2, G2.
  destruct w as [a0 st0 wr0 m0 l0 fr0 u0 me0]; cbn in A2, U2, M2, Hme |- *. subst.
  match goal with |- context [if ?b then _ else _] => destruct b end;
    destruct a0; cbn; repeat split; try assumption; [right|left]; reflexivity.
Qed.

(** Client "y" joining meeting "m1" without media. *)
Lemma join_completes_without_media_witness :
  isAuthReady lobby_y = true /\ mySessionId world_y <> "gemini-ai" /\
  step (appState y_joined) = StMeeting.
Proof.
  assert (H1 : isAuthReady lobby_y = true) by reflexivity.
  assert (H2 : mySessionId world_y <> "gemini-ai") by (cbn; discriminate).
  split; [exact H1|split; [exact H2|]].
  exact (proj1 (proj2 (join_completes_without_media lobby_y world_y H1 H2))).
Defined.

End ClientFacts.

(* ------------------------------------------------------------------ *)
(** ** Further properties of the base64 helpers *)

Module Base64More.
Import Base64 Base64Facts.
Open Scope Z_scope.

Lemma encode_bytes b : Forall is_byte b -> encode b = Some (b64_encode b).
Proof.
  intros Hb.
  assert (Hb' : Forall (fun x => 0 <= x < 65536) b).
  { eapply Forall_impl; [|exact Hb]. unfold is_byte. intros; lia. }
  unfold encode, btoa. rewrite map_mod_id by (lia || exact Hb').
  replace (forallb _ b) with true; [reflexivity|].
  symmetry. apply forallb_forall. intros x Hx.
  rewrite Forall_forall in Hb. specialize (Hb x Hx). unfold is_byte in Hb.
  apply andb_true_iff. rewrite Z.leb_le, Z.leb_le. lia.
Qed.

Lemma decode_b64_encode b : Forall is_byte b -> decode (b64_encode b) = Some b.
Proof.
  intros Hb.
  pose proof (bytes_sextets_ok b Hb) as Hok.
  destruct (sextets_length b) as (Hl1 & Hl2 & Hp).
  unfold decode, atob. rewrite encode_split.
  rewrite filter_no_ws.
  2:{ apply Forall_app. split.
      - apply Forall_forall. intros c Hc. apply in_map_iff in Hc as (s & <- & Hs).
        rewrite forallb_forall in Hok.
        apply sextet_char_not_ws, sextet_ok_range, Hok, Hs.
      - destruct Hp as [-> | [-> | ->]]; repeat constructor. }
  rewrite strip_encoded by assumption.
  rewrite length_map.
  destruct (Nat.eqb_spec (Nat.modulo (List.length (sextets b)) 4) 1) as [E|_];
    [contradiction|].
  rewrite map_option_char_sextet by exact Hok.
  rewrite dec_sextets_sextets by exact Hb.
  rewrite map_mod_id by (lia || exact Hb). reflexivity.
Qed.

Lemma b64_encode_length bs :
  List.length (b64_encode bs) = (4 * ((List.length bs + 2) / 3))%nat.
Proof.
  revert bs; fix IH 1; intros [|a [|b [|c rest]]]; try reflexivity.
  cbn [b64_encode app List.length]. rewrite IH.
  replace (S (S (S (List.length rest))) + 2)%nat with (1 * 3 + (List.length rest + 2))%nat
    by lia.
  rewrite Nat.div_add_l by lia. lia.
Qed.

Lemma sextet_char_in s : 0 <= s < 64 -> In (sextet_char s) alphabet.
Proof.
  intros Hs. unfold sextet_char. apply nth_In.
  replace (List.length alphabet) with 64%nat by reflexivity. lia.
Qed.

(** [encode] of a byte array yields [4 * ceil(n / 3)] characters, each a
    character of the base64 alphabet or the padding '='. *)
Theorem encode_length_alphabet b :
  Forall is_byte b ->
  exists s, encode b = Some s /\
            List.length s = (4 * ((List.length b + 2) / 3))%nat /\
            Forall (fun c => In c alphabet \/ c = pad) s.
Proof.
  intros Hb. exists (b64_encode b). split; [apply encode_bytes, Hb|].
  split; [apply b64_encode_length|].
  rewrite encode_split. apply Forall_app. split.
  - apply Forall_forall. intros c Hc. apply in_map_iff in Hc as (s & <- & Hs).
    left. apply sextet_char_in, sextet_ok_range.
    pose proof (bytes_sextets_ok b Hb) as Hok. rewrite forallb_forall in Hok. auto.
  - destruct (sextets_length b) as (_ & _ & [-> | [-> | ->]]);
      repeat (apply Forall_cons; [right; reflexivity|]); apply Forall_nil.
Qed.

Lemma encode_length_alphabet_witness :
  Forall is_byte [1; 2; 3; 4] /\
  exists s, encode [1; 2; 3; 4] = Some s /\ List.length s = 8%nat.
Proof.
  assert (H : Forall is_byte [1; 2; 3; 4]) by (repeat constructor; unfold is_byte; lia).
  split; [exact H|].
  destruct (encode_length_alphabet _ H) as [s [E [L _]]]. exists s. split; [exact E|exact L].
Defined.

Lemma index_from_absent c l i : ~ In c l -> index_from c l i = None.
Proof.
  revert i; induction l as [|x l IH]; intros i Hc; [reflexivity|]. cbn.
  destruct (Z.eqb_spec x c) as [->|_]; [exfalso; apply Hc; left; reflexivity|].
  apply IH. intros H. apply Hc. right. exact H.
Qed.

Lemma map_option_none {A B} (f : A -> option B) l x :
  In x l -> f x = None -> map_option f l = None.
Proof.
  induction l as [|y l IH]; [intros []|]. intros [->|H] Hx; cbn.
  - rewrite Hx. reflexivity.
  - rewrite (IH H Hx). destruct (f y); reflexivity.
Qed.

Lemma strip_padding_keeps c d : In c d -> c <> pad -> In c (strip_padding d).
Proof.
  intros Hin Hc. unfold strip_padding.
  destruct (Nat.eqb _ 0); [|exact Hin].
  apply in_rev in Hin.
  destruct (rev d) as [|p1 [|p2 r]] eqn:E.
  - destruct Hin.
  - destruct (Z.eqb_spec p1 pad) as [->|_].
    + destruct Hin as [H|[]]. congruence.
    + apply in_rev. rewrite E. exact Hin.
  - destruct (Z.eqb_spec p1 pad) as [->|_].
    + destruct (Z.eqb_spec p2 pad) as [->|_].
      * destruct Hin as [H|[H|H]]; try congruence. apply in_rev. rewrite rev_involutive. exact H.
      * destruct Hin as [H|H]; [congruence|]. apply in_rev. rewrite rev_involutive. exact H.
    + apply in_rev. rewrite E. exact Hin.
Qed.

(** [decode] throws (here [None]) on any character that is neither ASCII
    whitespace, nor '=', nor a character of the base64 alphabet: for instance
    the '-' and '_' of the URL-safe alphabet. *)
Theorem decode_rejects_foreign_char s c :
  In c s -> is_ascii_whitespace c = false -> c <> pad -> ~ In c alphabet ->
  decode s = None.
Proof.
  intros Hin Hws Hpad Halpha. unfold decode, atob.
  assert (Hd : In c (strip_padding (filter (fun c => negb (is_ascii_whitespace c)) s))).
  { apply strip_padding_keeps; [|exact Hpad]. apply filter_In. rewrite Hws. auto. }
  rewrite (map_option_none char_sextet _ c Hd) by (apply index_from_absent, Halpha).
  destruct (Nat.eqb _ 1); reflexivity.
Qed.

Lemma decode_rejects_foreign_char_witness :
  decode [83; 71; 45; 115] = None.
Proof.
  apply (decode_rejects_foreign_char _ 45).
  - right. right. left. reflexivity.
  - reflexivity.
  - discriminate.
  - intros H. repeat (destruct H as [H|H]; [discriminate|]). destruct H.
Defined.

(** ASCII whitespace anywhere in the input of [decode] is ignored. *)
Theorem decode_ignores_whitespace s1 ws s2 :
  Forall (fun c => is_ascii_whitespace c = true) ws ->
  decode (s1 ++ ws ++ s2) = decode (s1 ++ s2).
Proof.
  intros Hws. unfold decode, atob. rewrite !filter_app.
  replace (filter (fun c => negb (is_ascii_whitespace c)) ws) with (@nil Z); [reflexivity|].
  induction Hws as [|c ws Hc _ IH]; [reflexivity|]. cbn. rewrite Hc. exact IH.
Qed.

Lemma decode_ignores_whitespace_witness :
  decode ([83; 71] ++ [10; 32] ++ [86; 115]) = decode ([83; 71] ++ [86; 115]).
Proof.
  apply decode_ignores_whitespace. repeat constructor.
Defined.

Lemma dec_sextets_length sx :
  List.length (dec_sextets sx) = Nat.div (3 * List.length sx) 4.
Proof.
  revert sx; fix IH 1; intros [|w [|x [|y [|z rest]]]]; try reflexivity.
  cbn [dec_sextets app List.length]. rewrite IH.
  replace (3 * S (S (S (S (List.length rest)))))%nat
    with (3 * 4 + 3 * List.length rest)%nat by lia.
  rewrite Nat.div_add_l by lia. lia.
Qed.

Lemma map_option_length {A B} (f : A -> option B) l l' :
  map_option f l = Some l' -> List.length l' = List.length l.
Proof.
  revert l'; induction l as [|x l IH]; intros l' H; cbn in H.
  - injection H as <-. reflexivity.
  - destruct (f x), (map_option f l) eqn:E; try discriminate.
    injection H as <-. cbn. f_equal. apply IH. reflexivity.
Qed.

(** [decode] returns [floor(3 d / 4)] bytes, where [d] is the number of
    characters of its input once whitespace and the final padding are
    removed. *)
Theorem decode_length s bs :
  decode s = Some bs ->
  List.length bs
  = Nat.div (3 * List.length (strip_padding (filter (fun c => negb (is_ascii_whitespace c)) s))) 4.
Proof.
  unfold decode, atob.
  destruct (Nat.eqb _ 1); [discriminate|].
  destruct (map_option char_sextet _) as [sx|] eqn:E; [|discriminate].
  intros H. injection H as <-. rewrite length_map, dec_sextets_length.
  rewrite (map_option_length _ _ _ E). reflexivity.
Qed.

Lemma decode_length_witness :
  decode [83; 71; 86; 115; 98; 71; 56; 61] = Some [72; 101; 108; 108; 111] /\
  List.length [72; 101; 108; 108; 111] = 5%nat.
Proof.
  assert (H : decode [83; 71; 86; 115; 98; 71; 56; 61] = Some [72; 101; 108; 108; 111])
    by (vm_compute; reflexivity).
  split; [exact H|]. rewrite (decode_length _ _ H). vm_compute. reflexivity.
Defined.

End Base64More.

(* ------------------------------------------------------------------ *)
(** ** Properties of the PCM framing *)

Module PcmFacts.
Import Base64 Resample Pcm Base64More.
Open Scope Z_scope.

(** [ToInt16] keeps every sample in the 16-bit range, agrees with the
    truncated value modulo 2^16, and is the truncated value itself when that
    is in range; a product of 32768 or more (a sample of +1.0) wraps to a
    negative value. *)
Theorem to_int16_wraps x z :
  js_trunc x = Some z ->
  -32768 <= to_int16 x < 32768 /\
  to_int16 x mod 65536 = z mod 65536 /\
  (-32768 <= z < 32768 -> to_int16 x = z).
Proof.
  intros H. unfold to_int16. rewrite H. cbv zeta.
  destruct (Z.leb_spec 32768 (z mod 65536));
    (split; [|split]); [| | intros ? | | | intros ?];
    Z.div_mod_to_equations; lia.
Qed.

(** The sample 1.0, multiplied by 32768, is sent as -32768. *)
Lemma to_int16_wraps_witness :
  js_trunc (PrimFloat.mul 1%float 32768%float) = Some 32768 /\
  to_int16 (PrimFloat.mul 1%float 32768%float) mod 65536 = 32768 mod 65536 /\
  sample_int16 1%float = -32768.
Proof.
  assert (H : js_trunc (PrimFloat.mul 1%float 32768%float) = Some 32768)
    by (vm_compute; reflexivity).
  split; [exact H|split; [exact (proj1 (proj2 (to_int16_wraps _ _ H)))|]].
  vm_compute. reflexivity.
Defined.

Lemma to_int16_range x : -32768 <= to_int16 x < 32768.
Proof.
  unfold to_int16. destruct (js_trunc x) as [z|]; [|lia]. cbv zeta.
  destruct (Z.leb_spec 32768 (z mod 65536)); Z.div_mod_to_equations; lia.
Qed.

Lemma le16_bytes v : Forall is_byte (le16 v).
Proof.
  unfold le16, is_byte. cbv zeta.
  repeat constructor; Z.div_mod_to_equations; lia.
Qed.

Lemma int16_elements_le16 vs :
  Forall (fun v => -32768 <= v < 32768) vs ->
  int16_elements (flat_map le16 vs) = vs.
Proof.
  induction 1 as [|v vs Hv _ IH]; [reflexivity|].
  cbn [flat_map le16 app int16_elements]. rewrite IH. f_equal.
  unfold int16_of_le.
  destruct (Z.leb_spec 32768 (v mod 65536 mod 256 + 256 * (v mod 65536 / 256)));
    Z.div_mod_to_equations; lia.
Qed.

Lemma length_flat_map_le16 vs :
  List.length (flat_map le16 vs) = (2 * List.length vs)%nat.
Proof. induction vs as [|v vs IH]; [reflexivity|]. cbn. rewrite IH. lia. Qed.

Lemma map_nth_seq {A B} (f : A -> B) (l : list A) d :
  map (fun i => f (nth i l d)) (seq 0 (List.length l)) = map f l.
Proof.
  induction l as [|a l IH]; [reflexivity|].
  cbn [List.length seq map nth]. f_equal.
  rewrite <- seq_shift, map_map. exact IH.
Qed.

(** Sending and receiving compose: the payload of [createBlob xs] decodes to
    [2 n] bytes, and [decodeAudioData] at 24 kHz mono turns them into one
    channel holding [ToInt16(x * 32768) / 32768] for each sample [x]: the
    16-bit PCM framing loses nothing but the quantisation (and wraps a
    sample of +1.0 to -1.0). *)
Theorem pcm_roundtrip xs :
  xs <> [] ->
  exists s bytes,
    data (createBlob xs) = Some s /\ decode s = Some bytes /\
    List.length bytes = (2 * List.length xs)%nat /\
    decodeAudioData bytes 24000 1
    = Some [map (fun x => PrimFloat.div (float_of_Z (sample_int16 x)) 32768%float) xs].
Proof.
  intros Hne.
  set (vs := map sample_int16 xs).
  assert (Hvs : Forall (fun v => -32768 <= v < 32768) vs).
  { apply Forall_forall. intros v Hv. apply in_map_iff in Hv as (x & <- & _).
    apply to_int16_range. }
  assert (Hb : Forall is_byte (flat_map le16 vs)).
  { apply Forall_forall. intros b Hb. apply in_flat_map in Hb as (v & _ & Hb).
    pose proof (le16_bytes v) as H. rewrite Forall_forall in H. auto. }
  exists (b64_encode (flat_map le16 vs)), (flat_map le16 vs).
  split; [apply encode_bytes, Hb|].
  split; [apply decode_b64_encode, Hb|].
  split; [rewrite length_flat_map_le16; subst vs; rewrite length_map; reflexivity|].
  unfold decodeAudioData, int16_view.
  rewrite length_flat_map_le16, Nat.even_mul. cbn [Nat.even orb].
  rewrite int16_elements_le16 by exact Hvs.
  rewrite Nat.div_1_r.
  assert (Hlen : (List.length vs =? 0)%nat = false).
  { subst vs. rewrite length_map. destruct xs; [contradiction|reflexivity]. }
  rewrite Hlen. cbn [Nat.eqb Nat.ltb Nat.leb orb Z.ltb Z.compare].
  cbn [seq map]. f_equal. f_equal.
  rewrite (map_ext _ (fun i => PrimFloat.div (float_of_Z (nth i vs 0)) 32768%float))
    by (intros i; rewrite Nat.mul_1_r, Nat.add_0_r; reflexivity).
  rewrite (map_nth_seq (fun v => PrimFloat.div (float_of_Z v) 32768%float)).
  subst vs. rewrite map_map. reflexivity.
Qed.

Lemma pcm_roundtrip_witness :
  [0.5%float; (-0.25)%float] <> [] /\
  exists s bytes,
    data (createBlob [0.5%float; (-0.25)%float]) = Some s /\ decode s = Some bytes /\
    List.length bytes = 4%nat /\
    decodeAudioData bytes 24000 1
    = Some [map (fun x => PrimFloat.div (float_of_Z (sample_int16 x)) 32768%float)
                [0.5%float; (-0.25)%float]].
Proof.
  assert (H : [0.5%float; (-0.25)%float] <> []) by discriminate.
  split; [exact H|]. exact (pcm_roundtrip _ H).
Defined.

(** [decodeAudioData] throws (here [None]) on an odd number of bytes (the
    [Int16Array] view) and on fewer bytes than one frame of 16-bit samples
    ([createBuffer] with no frames), the empty payload included. *)
Theorem decodeAudioData_rejects bytes sampleRate numChannels :
  Nat.odd (List.length bytes) = true \/
  (List.length bytes < 2 * numChannels)%nat ->
  decodeAudioData bytes sampleRate numChannels = None.
Proof.
  intros H. unfold decodeAudioData, int16_view.
  destruct (Nat.even (List.length bytes)) eqn:Ev; [|reflexivity].
  destruct H as [Hodd|Hlt].
  - unfold Nat.odd in Hodd. rewrite Ev in Hodd. discriminate.
  - assert (Hl : (List.length (int16_elements bytes) <= List.length bytes / 2)%nat).
    { clear. revert bytes; fix IH 1; intros [|a [|b rest]]; cbn [int16_elements List.length];
        try (apply Nat.le_0_l).
      specialize (IH rest).
      replace (S (S (List.length rest))) with (1 * 2 + List.length rest)%nat by lia.
      rewrite Nat.div_add_l by lia. lia. }
    destruct (Nat.eqb_spec numChannels 0) as [->|Hnc]; [reflexivity|].
    replace (Nat.div (List.length (int16_elements bytes)) numChannels) with 0%nat.
    + change (0 =? 0)%nat with true. rewrite orb_true_r. reflexivity.
    + symmetry. apply Nat.div_small.
      apply (Nat.le_lt_trans _ (List.length bytes / 2)); [exact Hl|].
      apply Nat.Div0.div_lt_upper_bound. lia.
Qed.

Lemma decodeAudioData_rejects_witness :
  decodeAudioData [1; 2; 3] 24000 1 = None.
Proof. apply decodeAudioData_rejects. left. reflexivity. Defined.

End PcmFacts.

(* ------------------------------------------------------------------ *)
(** ** Life cycle of the [LiveClient] *)

Module LiveMore.
Import Live.

(** [disconnect] is idempotent: a second call does nothing. *)
Theorem disconnect_idempotent st :
  disconnect (fst (disconnect st)) = (fst (disconnect st), []).
Proof.
  unfold disconnect at 2 3.
  destruct (negb (isConnected st) && _) eqn:E.
  - cbn [fst]. unfold disconnect. rewrite E. reflexivity.
  - reflexivity.
Qed.

(** A [connect] that fails after creating its audio contexts (the
    microphone is denied, or the SDK's [live.connect] throws) leaves both
    contexts open, closes nothing and stops no track; the client is left
    unconnected and without a session, so a later [disconnect] returns at
    once and cannot release them either. *)
Theorem failed_connect_leaks_contexts st audioDeviceId env :
  isConnected st = false -> sessionPromise st = None ->
  microphone env = None \/ live_connect_throws env = true ->
  inputAudioContext (fst (connect st audioDeviceId env)) = Some (next_id st) /\
  outputAudioContext (fst (connect st audioDeviceId env)) = Some (S (next_id st)) /\
  isConnected (fst (connect st audioDeviceId env)) = false /\
  sessionPromise (fst (connect st audioDeviceId env)) = None /\
  Forall (fun e => match e with CloseContext _ | StopTracks _ => False | _ => True end)
         (snd (connect st audioDeviceId env)) /\
  disconnect (fst (connect st audioDeviceId env)) = (fst (connect st audioDeviceId env), []).
Proof.
  intros Hc Hs Henv. unfold connect. rewrite Hc.
  destruct (microphone env) as [mic|].
  - destruct Henv as [Hm|Ht]; [discriminate|]. rewrite Ht.
    unfold disconnect; cbn; rewrite ?Hc, ?Hs; cbn; rewrite ?Hc, ?Hs; cbn.
    repeat split; repeat constructor.
  - unfold disconnect; cbn; rewrite ?Hc, ?Hs; cbn.
    repeat split; repeat constructor.
Qed.

Lemma failed_connect_leaks_contexts_witness :
  isConnected initial = false /\ sessionPromise initial = None /\
  inputAudioContext (fst (connect initial None (mkConnectEnv None false))) = Some 0.
Proof.
  assert (H1 : isConnected initial = false) by reflexivity.
  assert (H2 : sessionPromise initial = None) by reflexivity.
  split; [exact H1|split; [exact H2|]].
  exact (proj1 (failed_connect_leaks_contexts initial None (mkConnectEnv None false) H1 H2
                 (or_introl eq_refl))).
Defined.

(** A full session: a successful [connect], the session's [onopen], then
    [disconnect] releases everything acquired: the processor and source
    nodes, the microphone's tracks, both audio contexts and the session, and
    leaves the client in its initial configuration. *)
Theorem session_cycle_releases_all st audioDeviceId env mic :
  isConnected st = false -> microphone env = Some mic -> live_connect_throws env = false ->
  let i := next_id st in
  disconnect (fst (onOpen (fst (connect st audioDeviceId env))))
  = (mkLive None None None false false false None (S (S (S i))),
     [ConnectionStateChange false; SpeakingStateChange false; DisconnectProcessor;
      DisconnectSource; StopTracks mic; CloseContext i; CloseContext (S i);
      CloseSession (S (S i))]).
Proof.
  intros Hc Hm Ht. unfold connect. rewrite Hc, Hm, Ht. reflexivity.
Qed.

Lemma session_cycle_releases_all_witness :
  isConnected initial = false /\
  snd (disconnect (fst (onOpen (fst (connect initial None (mkConnectEnv (Some 7) false))))))
  = [ConnectionStateChange false; SpeakingStateChange false; DisconnectProcessor;
     DisconnectSource; StopTracks 7; CloseContext 0; CloseContext 1; CloseSession 2].
Proof.
  assert (H : isConnected initial = false) by reflexivity.
  split; [exact H|].
  rewrite (session_cycle_releases_all initial None (mkConnectEnv (Some 7) false) 7 H
             eq_refl eq_refl).
  reflexivity.
Defined.

End LiveMore.

(* ------------------------------------------------------------------ *)
(** ** Further properties of the client's handlers *)

Module ClientMore.
Import Client Scenarios ClientFacts.
Open Scope string_scope.

(** *** Leaving *)

(** [leaveMeeting] (with a meeting, a session id and a database connection)
    removes the client's record, stops every track of the local and the
    screen stream of its render, resets the meeting state and leaves the
    AI session disconnected. *)
Theorem leaveMeeting_cleans_up env w :
  meetingId env <> "" -> mySessionId w <> "" -> isAuthReady env = true ->
  store_get (store (leaveMeeting env w)) (meetingId env, mySessionId w) = None /\
  (forall sid, localStream env = Some sid \/ screenStream env = Some sid ->
     Forall (fun t => stopped t = true) (stream_tracks (media (leaveMeeting env w)) sid)) /\
  step (appState (leaveMeeting env w)) = StLanding /\
  meetingId (appState (leaveMeeting env w)) = "" /\
  localRole (appState (leaveMeeting env w)) = Guest /\
  participants (appState (leaveMeeting env w)) = [] /\
  localStream (appState (leaveMeeting env w)) = None /\
  screenStream (appState (leaveMeeting env w)) = None /\
  viewMode (appState (leaveMeeting env w)) = GALLERY /\
  activeScreenId (appState (leaveMeeting env w)) = None /\
  Live.isConnected (live (leaveMeeting env w)) = false /\
  Live.sessionPromise (live (leaveMeeting env w)) = None.
Proof.
  intros Hm Hme Ha.
  destruct w as [a st wr m l fr u me]. cbn [mySessionId] in *.
  assert (Hc : negb (String.eqb (meetingId env) "") && negb (String.eqb me "")
               && isAuthReady env = true).
  { apply String.eqb_neq in Hm, Hme. rewrite Hm, Hme, Ha. reflexivity. }
  unfold leaveMeeting. cbv zeta. cbn [mySessionId]. rewrite Hc.
  destruct (live_disconnect_clean l) as [L1 L2].
  assert (Hls : forall sid, localStream env = Some sid \/ screenStream env = Some sid ->
     Forall (fun t => stopped t = true)
       (stream_tracks (media (on_stream (screenStream env) stop_track
                         (on_stream (localStream env) stop_track
                            (setS [SetStep StLanding; SetMeetingId ""; SetLocalRole Guest;
                                   SetParticipants []]
                                  (write (OpRemove (meetingId env) me)
                                         (mkWorld a st wr m l fr u me))))))
                      sid)).
  { intros sid Hsid.
    destruct (localStream env) as [ls|], (screenStream env) as [ss|]; cbn [on_stream media];
      destruct Hsid as [Hs|Hs]; try discriminate; injection Hs as ->.
    - apply stopped_after_stop. left. apply stopped_after_stop. right. reflexivity.
    - apply stopped_after_stop. right. reflexivity.
    - apply stopped_after_stop. right. reflexivity.
    - apply stopped_after_stop. right. reflexivity. }
  destruct (localStream env), (screenStream env); destruct a; cbn in Hls |- *;
    (split; [apply store_get_remove|split; [exact Hls|repeat split; assumption]]).
Qed.

Lemma leaveMeeting_cleans_up_witness :
  meetingId (appState x_sharing) <> "" /\ mySessionId x_sharing <> "" /\
  isAuthReady (appState x_sharing) = true /\
  Forall (fun t => stopped t = true)
         (stream_tracks (media (leaveMeeting (appState x_sharing) x_sharing)) 1).
Proof.
  assert (H1 : meetingId (appState x_sharing) <> "") by (vm_compute; discriminate).
  assert (H2 : mySessionId x_sharing <> "") by (vm_compute; discriminate).
  assert (H3 : isAuthReady (appState x_sharing) = true) by (vm_compute; reflexivity).
  split; [exact H1|split; [exact H2|split; [exact H3|]]].
  apply (proj1 (proj2 (leaveMeeting_cleans_up _ _ H1 H2 H3))).
  right. vm_compute. reflexivity.
Defined.

(** *** The roster callback *)

(** When no record of the meeting is left (the meeting was deleted), the
    roster callback gets [null]: the client empties its participant list
    but does not leave: it stays on its screen with its streams, and
    writes or shows nothing. *)
Theorem roster_deleted_client_stays env w :
  (forall key, store_get (store w) (meetingId env, key) = None) ->
  participants (appState (deliver env w)) = [] /\
  step (appState (deliver env w)) = step (appState w) /\
  localStream (appState (deliver env w)) = localStream (appState w) /\
  store (deliver env w) = store w /\
  writes (deliver env w) = writes w /\
  media (deliver env w) = media w /\
  ui (deliver env w) = ui w.
Proof.
  intros H. unfold deliver. rewrite (snapshot_none _ _ H).
  destruct w as [[] st wr m l fr u me]. cbn. repeat split.
Qed.

Lemma roster_deleted_client_stays_witness :
  step (appState (deliver x_env (with_store x_joined []))) = StMeeting.
Proof.
  assert (H : forall key, store_get (store (with_store x_joined [])) (meetingId x_env, key) = None)
    by reflexivity.
  rewrite (proj1 (proj2 (roster_deleted_client_stays x_env _ H))).
  vm_compute. reflexivity.
Defined.

(** A mute set by the host in the client's record is applied: the client
    becomes muted and the audio tracks of its render's local stream are
    disabled. The converse is not: when the record is not muted (or the
    client already was), neither the client's mute state nor its tracks
    change, so an unmute by the host is never applied locally. *)
Theorem roster_mute_one_way env R w myData :
  find (id_is (mySessionId w)) R = Some myData ->
  (truthy (P.isMuted myData) && negb (isMuted env) = true ->
     isMuted (appState (onRosterValue env (Some R) w)) = true /\
     media (onRosterValue env (Some R) w)
     = match localStream env with
       | Some sid => media_map (media w) sid (set_enabled Audio false)
       | None => media w
       end) /\
  (truthy (P.isMuted myData) && negb (isMuted env) = false ->
     isMuted (appState (onRosterValue env (Some R) w)) = isMuted (appState w) /\
     media (onRosterValue env (Some R) w) = media w).
Proof.
  intros Hf. pose proof (find_existsb _ _ _ Hf) as Hex.
  destruct w as [a st wr m l fr u me]. cbn [mySessionId] in *.
  unfold onRosterValue. cbn [mySessionId]. rewrite Hex. cbn [negb]. rewrite Hf.
  destruct (find (fun p => truthy (P.isScreenSharing p)) R);
    destruct (str_truthy (activeScreenId env));
    destruct (truthy (P.isMuted myData) && negb (isMuted env));
    destruct (localStream env); destruct a; cbn;
    split; intros H; try discriminate; split; reflexivity.
Qed.

Lemma roster_mute_one_way_witness :
  find (id_is "x") [record "x" Guest] = Some (record "x" Guest) /\
  isMuted (appState (onRosterValue x_env (Some [record "x" Guest]) x_joined))
  = isMuted (appState x_joined).
Proof.
  assert (H : find (id_is (mySessionId x_joined)) [record "x" Guest] = Some (record "x" Guest))
    by (vm_compute; reflexivity).
  split; [exact H|].
  apply (proj2 (roster_mute_one_way x_env _ x_joined _ H)).
  vm_compute. reflexivity.
Defined.

(** When nobody in the roster shares a screen any more and the render had an
    active screen, the callback clears it and returns to the gallery; when
    someone shares, it changes neither (no automatic switch to the shared
    screen). *)
Theorem roster_screen_share_reset env R w :
  existsb (id_is (mySessionId w)) R = true ->
  (find (fun p => truthy (P.isScreenSharing p)) R = None ->
   str_truthy (activeScreenId env) = true ->
     activeScreenId (appState (onRosterValue env (Some R) w)) = None /\
     viewMode (appState (onRosterValue env (Some R) w)) = GALLERY) /\
  (find (fun p => truthy (P.isScreenSharing p)) R <> None ->
     activeScreenId (appState (onRosterValue env (Some R) w)) = activeScreenId (appState w) /\
     viewMode (appState (onRosterValue env (Some R) w)) = viewMode (appState w)).
Proof.
  intros Hex. destruct w as [a st wr m l fr u me]. cbn [mySessionId] in *.
  unfold onRosterValue. cbn [mySessionId]. rewrite Hex. cbn [negb].
  destruct (find (fun p => truthy (P.isScreenSharing p)) R);
    destruct (str_truthy (activeScreenId env));
    destruct (find (id_is me) R) as [d|];
    try destruct (truthy (P.isMuted d) && negb (isMuted env));
    destruct (localStream env); destruct a; cbn;
    split; intros H; try intros H'; try discriminate; try congruence; split; reflexivity.
Qed.

Lemma roster_screen_share_reset_witness :
  existsb (id_is (mySessionId x_sharing)) (participants (appState x_in)) = true /\
  viewMode (appState (onRosterValue (appState x_sharing) (Some (participants (appState x_in)))
                                    x_sharing)) = GALLERY.
Proof.
  assert (H : existsb (id_is (mySessionId x_sharing)) (participants (appState x_in)) = true)
    by (vm_compute; reflexivity).
  split; [exact H|].
  refine (proj2 (proj1 (roster_screen_share_reset _ _ _ H) _ _));
    vm_compute; reflexivity.
Defined.

(** *** Host controls *)

(** [muteAll] writes [isMuted: true] to the record of each participant of
    the render's roster that is neither a host nor the AI and not already
    muted, in roster order, and nothing else. *)
Theorem muteAll_writes env w :
  writes (muteAll env w)
  = (writes w ++ map (fun p => OpUpdate (meetingId env) (js_str (P.id p)) [FIsMuted true])
                     (filter (fun p => negb (role_is Host p) && negb (role_is Ai p)
                                       && negb (truthy (P.isMuted p)))
                             (participants env)))%list.
Proof.
  unfold muteAll. generalize (participants env) as ps. intros ps. revert w.
  induction ps as [|p ps IH]; intros w; cbn [fold_left filter map].
  - symmetry. apply app_nil_r.
  - destruct (negb (role_is Host p) && negb (role_is Ai p) && negb (truthy (P.isMuted p)));
      rewrite IH; cbn [map]; [|reflexivity].
    cbn [write writes]. rewrite <- app_assoc. reflexivity.
Qed.

Lemma muted_after_update s mid k k' :
  (exists r, store_get s k = Some r /\ P.isMuted r = Some true) ->
  exists r, store_get (apply_op s (OpUpdate mid k' [FIsMuted true])) k = Some r
            /\ P.isMuted r = Some true.
Proof.
  intros [r [Hr Hm]]. cbn [apply_op].
  destruct (key_eqb k (mid, k')) eqn:E.
  - apply key_eqb_true in E. subst k. rewrite store_get_set. eexists. split; reflexivity.
  - rewrite store_get_set_other by exact E. exists r. split; assumption.
Qed.

Lemma muted_after_own_update s mid k :
  exists r, store_get (apply_op s (OpUpdate mid k [FIsMuted true])) (mid, k) = Some r
            /\ P.isMuted r = Some true.
Proof. cbn [apply_op]. rewrite store_get_set. eexists. split; reflexivity. Qed.

(** After [muteAll], every participant of the render's roster that it
    targets (not a host, not the AI, not shown as muted) has a record in the
    store, muted. *)
Theorem muteAll_mutes_targets env w p :
  In p (participants env) ->
  negb (role_is Host p) && negb (role_is Ai p) && negb (truthy (P.isMuted p)) = true ->
  exists r, store_get (store (muteAll env w)) (meetingId env, js_str (P.id p)) = Some r
            /\ P.isMuted r = Some true.
Proof.
  unfold muteAll. generalize (participants env) as ps. intros ps Hin Hp. revert w.
  induction ps as [|q ps IH]; [destruct Hin|]. intros w. cbn [fold_left].
  destruct Hin as [->|Hin].
  - rewrite Hp.
    assert (Pres : forall ps w0,
               (exists r, store_get (store w0) (meetingId env, js_str (P.id p)) = Some r
                          /\ P.isMuted r = Some true) ->
               exists r, store_get (store (fold_left (fun w p0 =>
                   if negb (role_is Host p0) && negb (role_is Ai p0) && negb (truthy (P.isMuted p0))
                   then write (OpUpdate (meetingId env) (js_str (P.id p0)) [FIsMuted true]) w
                   else w) ps w0)) (meetingId env, js_str (P.id p)) = Some r
                 /\ P.isMuted r = Some true).
    { induction ps0 as [|q0 ps0 IH0]; intros w0 H0; [exact H0|]. cbn [fold_left]. apply IH0.
      destruct (negb (role_is Host q0) && negb (role_is Ai q0) && negb (truthy (P.isMuted q0)));
        [|exact H0].
      apply muted_after_update. exact H0. }
    apply Pres. apply muted_after_own_update.
  - apply IH. exact Hin.
Qed.

Lemma muteAll_mutes_targets_witness :
  exists r, store_get (store (muteAll (host_env (participants (appState x_in))) (host_world (store x_in))))
                      ("m1", "x") = Some r /\ P.isMuted r = Some true.
Proof.
  assert (Hin : In (record "x" Guest) (participants (host_env (participants (appState x_in))))).
  { vm_compute. right. right. left. reflexivity. }
  exact (muteAll_mutes_targets _ _ _ Hin eq_refl).
Defined.

(** [muteParticipant] and [toggleParticipantRole] decide from the render's
    roster entry [p] and keep every other field of the stored record: mute
    stores the negation of the mute state shown in [p]; the role toggle
    turns a host into a guest and anyone else (a guest, the AI, a record
    without role) into a host. *)
Theorem moderation_updates_keep_fields env pid w p r :
  find (id_is pid) (participants env) = Some p ->
  store_get (store w) (meetingId env, pid) = Some r ->
  store_get (store (muteParticipant env pid w)) (meetingId env, pid)
  = Some (P.mk (P.id r) (P.name r) (P.avatarUrl r) (Some (negb (truthy (P.isMuted p))))
               (P.isVideoOff r) (P.isSpeaking r) (P.isScreenSharing r) (P.role r)) /\
  store_get (store (toggleParticipantRole env pid w)) (meetingId env, pid)
  = Some (P.mk (P.id r) (P.name r) (P.avatarUrl r) (P.isMuted r) (P.isVideoOff r)
               (P.isSpeaking r) (P.isScreenSharing r)
               (Some (match P.role p with Some Host => Guest | _ => Host end))).
Proof.
  intros Hf Hr. unfold muteParticipant, toggleParticipantRole. rewrite Hf.
  cbn [write store apply_op]. rewrite Hr, !store_get_set. split; [reflexivity|].
  unfold role_is. destruct (P.role p) as [[]|]; reflexivity.
Qed.

Lemma moderation_updates_keep_fields_witness :
  find (id_is "x") (participants (appState x_in)) = Some (record "x" Guest) /\
  store_get (store (toggleParticipantRole (host_env (participants (appState x_in))) "x"
                                           (host_world (store x_in)))) ("m1", "x")
  = Some (P.mk (Some "x") (Some "x") (Some "") (Some false) (Some false) (Some false) None
               (Some Host)).
Proof.
  assert (H1 : find (id_is "x") (participants (host_env (participants (appState x_in))))
               = Some (record "x" Guest)) by (vm_compute; reflexivity).
  assert (H2 : store_get (store (host_world (store x_in)))
                         (meetingId (host_env (participants (appState x_in))), "x")
               = Some (record "x" Guest)) by (vm_compute; reflexivity).
  split; [exact H1|].
  exact (proj2 (moderation_updates_keep_fields _ _ _ _ _ H1 H2)).
Defined.

(** A mute or role change aimed at a participant the render still lists but
    whose record is gone (it left, or was removed) recreates the record,
    holding only the updated field and no id or name; the meeting's roster
    snapshot is then non-empty again. *)
Theorem moderation_recreates_removed_record env pid w p :
  find (id_is pid) (participants env) = Some p ->
  store_get (store w) (meetingId env, pid) = None ->
  store_get (store (muteParticipant env pid w)) (meetingId env, pid)
  = Some (P.mk None None None (Some (negb (truthy (P.isMuted p)))) None None None None) /\
  store_get (store (toggleParticipantRole env pid w)) (meetingId env, pid)
  = Some (P.mk None None None None None None None
               (Some (match P.role p with Some Host => Guest | _ => Host end))) /\
  snapshot (store (muteParticipant env pid w)) (meetingId env) <> None.
Proof.
  intros Hf Hr.
  assert (M : store_get (store (muteParticipant env pid w)) (meetingId env, pid)
              = Some (P.mk None None None (Some (negb (truthy (P.isMuted p))))
                           None None None None)).
  { unfold muteParticipant. rewrite Hf. cbn [write store apply_op].
    rewrite Hr, store_get_set. reflexivity. }
  split; [exact M|split].
  - unfold toggleParticipantRole. rewrite Hf. cbn [write store apply_op].
    rewrite Hr, store_get_set. unfold role_is. destruct (P.role p) as [[]|]; reflexivity.
  - exact (snapshot_some _ _ _ _ M).
Qed.

Lemma moderation_recreates_removed_record_witness :
  find (id_is "x") (participants (appState x_in)) = Some (record "x" Guest) /\
  store_get (store (muteParticipant (host_env (participants (appState x_in))) "x"
                                     (host_world (store after_kick)))) ("m1", "x")
  = Some (P.mk None None None (Some true) None None None None).
Proof.
  assert (H1 : find (id_is "x") (participants (host_env (participants (appState x_in))))
               = Some (record "x" Guest)) by (vm_compute; reflexivity).
  assert (H2 : store_get (store (host_world (store after_kick)))
                         (meetingId (host_env (participants (appState x_in))), "x") = None)
    by (vm_compute; reflexivity).
  split; [exact H1|].
  exact (proj1 (moderation_recreates_removed_record _ _ _ _ H1 H2)).
Defined.

(** The sidebar offers the per-participant buttons only for listed
    participants other than the client itself and the AI participant. *)
Theorem moderation_controls_targets a me c :
  In c (moderationControls a me) ->
  c = CMuteAll \/
  exists p, In p (participants a) /\ role_is Ai p = false /\ id_is me p = false /\
            (c = CToggleRole (js_str (P.id p)) \/ c = CMute (js_str (P.id p))
             \/ c = CKick (js_str (P.id p))).
Proof.
  unfold moderationControls. intros Hc. apply in_app_or in Hc as [Hc|Hc].
  - left. destruct (isLocalHost a me); [destruct Hc as [<-|[]]; reflexivity|destruct Hc].
  - right. apply in_flat_map in Hc as [p [Hp Hc]].
    destruct (negb (role_is Ai p) && negb (id_is me p) && isLocalHost a me) eqn:E;
      [|destruct Hc].
    apply andb_true_iff in E as [E _]. apply andb_true_iff in E as [E1 E2].
    apply negb_true_iff in E1, E2.
    exists p. split; [exact Hp|split; [exact E1|split; [exact E2|]]].
    destruct Hc as [<-|[<-|[<-|[]]]]; auto.
Qed.

Lemma moderation_controls_targets_witness :
  In (CMute "x") (moderationControls (host_env (participants (appState x_in))) "h") /\
  (CMute "x" = CMuteAll \/
   exists p, In p (participants (host_env (participants (appState x_in)))) /\
             role_is Ai p = false /\ id_is "h" p = false /\
             (CMute "x" = CToggleRole (js_str (P.id p)) \/ CMute "x" = CMute (js_str (P.id p))
              \/ CMute "x" = CKick (js_str (P.id p)))).
Proof.
  assert (H : In (CMute "x") (moderationControls (host_env (participants (appState x_in))) "h")).
  { vm_compute. right. right. left. reflexivity. }
  split; [exact H|]. exact (moderation_controls_targets _ _ _ H).
Defined.

(** *** Joining and devices *)

(** [startMeeting] without a database connection, or whose write is
    refused or fails, joins nothing: the store, the client's writes, its
    streams and its screen are unchanged, and the failure is shown (an
    alert, or the PERMISSION_DENIED error screen). *)
Theorem startMeeting_failure_no_join env db gum w :
  isAuthReady env = false \/ db <> DbOk ->
  store (startMeeting env db gum w) = store w /\
  writes (startMeeting env db gum w) = writes w /\
  media (startMeeting env db gum w) = media w /\
  step (appState (startMeeting env db gum w)) = step (appState w) /\
  localStream (appState (startMeeting env db gum w)) = localStream (appState w) /\
  (has_alert (ui (startMeeting env db gum w)) = true \/
   dbError (appState (startMeeting env db gum w)) = Some "PERMISSION_DENIED").
Proof.
  intros H. unfold startMeeting.
  destruct (isAuthReady env) eqn:Ha; cbn [negb].
  - destruct H as [H|H]; [discriminate|].
    destruct db as [| |msg]; [contradiction| |];
      destruct w as [[] st wr m l fr u me]; cbn; repeat split.
    + right. reflexivity.
    + left. unfold has_alert. rewrite existsb_app. cbn. apply orb_true_r.
  - destruct w as [[] st wr m l fr u me]; cbn; repeat split.
    left. unfold has_alert. rewrite existsb_app. cbn. apply orb_true_r.
Qed.

Lemma startMeeting_failure_no_join_witness :
  DbPermissionDenied <> DbOk /\
  step (appState (startMeeting lobby_x DbPermissionDenied None world_x)) = StLobby.
Proof.
  assert (H : DbPermissionDenied <> DbOk) by discriminate.
  split; [exact H|].
  exact (proj1 (proj2 (proj2 (proj2 (startMeeting_failure_no_join lobby_x _ None world_x
                                                                  (or_intror H)))))).
Defined.

(** A successful join writes the client's own record and, for a host only,
    the AI participant's record when the meeting has none yet; an existing
    AI record is left as it is, and a guest never writes one. *)
Theorem startMeeting_writes env gum w :
  isAuthReady env = true -> mySessionId w <> "gemini-ai" ->
  writes (startMeeting env DbOk gum w)
  = (writes w
     ++ [OpSet (meetingId env) (mySessionId w)
               (P.mk (Some (mySessionId w)) (Some (userName env)) (Some "")
                     (Some (isMuted env)) (Some (isVideoOff env)) (Some false) None
                     (Some (localRole env)))]
     ++ (if role_eqb (localRole env) Host then
           match store_get (store w) (meetingId env, "gemini-ai") with
           | Some _ => []
           | None => [OpSet (meetingId env) "gemini-ai" AI_PARTICIPANT]
           end
         else []))%list.
Proof.
  intros Ha Hme. unfold startMeeting. rewrite Ha. cbn [negb]. cbv zeta.
  set (u := P.mk _ _ _ _ _ _ _ _).
  assert (G : store_get (store (write (OpSet (meetingId env) (mySessionId w) u) w))
                        (meetingId env, "gemini-ai")
              = store_get (store w) (meetingId env, "gemini-ai")).
  { cbn [write store apply_op]. apply store_get_set_other.
    unfold key_eqb; cbn [fst snd]. rewrite String.eqb_refl, andb_true_l.
    apply String.eqb_neq. intros E. apply Hme. symmetry. exact E. }
  set (w1 := write (OpSet (meetingId env) (mySessionId w) u) w) in *.
  set (w2 := if role_eqb (localRole env) Host then _ else w1).
  assert (W2 : writes w2
               = (writes w ++ [OpSet (meetingId env) (mySessionId w) u]
                  ++ (if role_eqb (localRole env) Host then
                        match store_get (store w) (meetingId env, "gemini-ai") with
                        | Some _ => []
                        | None => [OpSet (meetingId env) "gemini-ai" AI_PARTICIPANT]
                        end
                      else []))%list).
  { subst w2. rewrite G.
    destruct (role_eqb (localRole env) Host);
      [destruct (store_get (store w) (meetingId env, "gemini-ai"))|];
      cbn; rewrite <- ?app_assoc; rewrite ?app_nil_r; reflexivity. }
  rewrite <- W2. clearbody w2.
  match goal with |- context [if ?b then _ else _] => destruct b end;
    [destruct gum|]; destruct w2; reflexivity.
Qed.

Lemma startMeeting_writes_witness :
  isAuthReady lobby_x = true /\ mySessionId world_x <> "gemini-ai" /\
  List.length (writes x_joined) = 1%nat.
Proof.
  assert (H1 : isAuthReady lobby_x = true) by reflexivity.
  assert (H2 : mySessionId world_x <> "gemini-ai") by (cbn; discriminate).
  split; [exact H1|split; [exact H2|]].
  unfold x_joined. rewrite (startMeeting_writes lobby_x None world_x H1 H2).
  reflexivity.
Defined.

(** When [startMeeting] acquires a new local stream, it becomes the
    client's [localStream], its audio tracks are enabled exactly when the
    client is not muted and its video tracks exactly when the camera is not
    off (the state of the render). *)
Theorem startMeeting_stream_flags env tracks w :
  isAuthReady env = true -> localStream env = None ->
  localStream (appState (startMeeting env DbOk (Some tracks) w)) = Some (fresh w) /\
  step (appState (startMeeting env DbOk (Some tracks) w)) = StMeeting /\
  exists tracks',
    media (startMeeting env DbOk (Some tracks) w) = (media w ++ [(fresh w, tracks')])%list /\
    map kind tracks' = map kind tracks /\
    Forall (fun t => enabled t = match kind t with
                                 | Audio => negb (isMuted env)
                                 | Video => negb (isVideoOff env)
                                 end) tracks'.
Proof.
  intros Ha Hl. unfold startMeeting. rewrite Ha, Hl. cbn [negb]. cbv zeta.
  set (w2 := if role_eqb (localRole env) Host then _ else _).
  assert (E : media w2 = media w /\ fresh w2 = fresh w).
  { subst w2. destruct (role_eqb (localRole env) Host);
      [destruct (store_get _ _)|]; split; reflexivity. }
  destruct E as [E1 E2]. clearbody w2.
  destruct w2 as [[] st2 wr2 m2 l2 fr2 u2 me2]; cbn in E1, E2 |- *. subst.
  split; [reflexivity|split; [reflexivity|]].
  eexists. split; [reflexivity|]. split.
  - rewrite map_map. apply map_ext. intros t. apply enabled_set_enabled2.
  - apply Forall_forall. intros t Ht. apply in_map_iff in Ht as (t0 & <- & _).
    destruct (enabled_set_enabled2 t0 (negb (isMuted env)) (negb (isVideoOff env))) as [K En].
    rewrite K, En. reflexivity.
Qed.

Lemma startMeeting_stream_flags_witness :
  isAuthReady lobby_y = true /\ localStream lobby_y = None /\
  localStream (appState (startMeeting lobby_y DbOk (Some cam) world_y)) = Some 0%nat.
Proof.
  assert (H1 : isAuthReady lobby_y = true) by reflexivity.
  assert (H2 : localStream lobby_y = None) by reflexivity.
  split; [exact H1|split; [exact H2|]].
  exact (proj1 (startMeeting_stream_flags lobby_y cam world_y H1 H2)).
Defined.

(** [handleDeviceChange] with a running local stream records the chosen
    device, stops every track of the old stream and makes the newly
    acquired stream the local stream, its audio tracks enabled exactly when
    the client is not muted and its video tracks exactly when the camera is
    not off. *)
Theorem handleDeviceChange_switches env type deviceId tracks w old :
  localStream env = Some old -> (old < fresh w)%nat ->
  Forall (fun e => (fst e < fresh w)%nat) (media w) ->
  localStream (appState (handleDeviceChange env type deviceId (Some tracks) w)) = Some (fresh w) /\
  (match type with Audio => selectedAudioId | Video => selectedVideoId end)
    (appState (handleDeviceChange env type deviceId (Some tracks) w)) = deviceId /\
  exists tracks',
    media (handleDeviceChange env type deviceId (Some tracks) w)
    = (media_map (media w) old stop_track ++ [(fresh w, tracks')])%list /\
    map kind tracks' = map kind tracks /\
    Forall (fun t => enabled t = match kind t with
                                 | Audio => negb (isMuted env)
                                 | Video => negb (isVideoOff env)
                                 end) tracks'.
Proof.
  intros Hl Hold Hfresh. unfold handleDeviceChange. rewrite Hl.
  destruct w as [a st wr m l fr u me]. cbn [fresh media] in *.
  assert (Hm : Forall (fun e => (fst e < fr)%nat) (media_map m old stop_track)).
  { unfold media_map. apply Forall_map. eapply Forall_impl; [|exact Hfresh].
    intros [k ts] Hk. cbn in *. destruct (Nat.eqb k old); exact Hk. }
  split; [|split].
  - destruct type, a; reflexivity.
  - destruct type, a; reflexivity.
  - cbn [new_stream setS on_stream media fresh appState store writes live ui mySessionId].
    exists (map (set_enabled Video (negb (isVideoOff env)))
                (map (set_enabled Audio (negb (isMuted env))) tracks)).
    rewrite !media_map_app, (media_map_fresh (media_map m old stop_track)) by exact Hm.
    rewrite (media_map_fresh (media_map m old stop_track)) by exact Hm.
    rewrite !media_map_one.
    destruct (Nat.eqb_spec fr old) as [E|_]; [lia|]. rewrite !Nat.eqb_refl.
    split; [reflexivity|split].
    + rewrite !map_map. apply map_ext. intros t. apply enabled_set_enabled2.
    + apply Forall_forall. intros t Ht. rewrite map_map in Ht.
      apply in_map_iff in Ht as (t0 & <- & _).
      destruct (enabled_set_enabled2 t0 (negb (isMuted env)) (negb (isVideoOff env))) as [K En].
      rewrite K, En. reflexivity.
Qed.

Lemma handleDeviceChange_switches_witness :
  localStream (appState x_in) = Some 0%nat /\ (0 < fresh x_in)%nat /\
  localStream (appState (handleDeviceChange (appState x_in) Audio "mic-2" (Some cam) x_in))
  = Some (fresh x_in).
Proof.
  assert (H1 : localStream (appState x_in) = Some 0%nat) by (vm_compute; reflexivity).
  assert (H2 : (0 < fresh x_in)%nat) by (vm_compute; lia).
  assert (H3 : Forall (fun e => (fst e < fresh x_in)%nat) (media x_in))
    by (vm_compute; repeat constructor; lia).
  split; [exact H1|split; [exact H2|]].
  exact (proj1 (handleDeviceChange_switches _ Audio "mic-2" cam _ _ H1 H2 H3)).
Defined.

(** A non-blank name always leads to the lobby, whatever happens to the
    camera and microphone request and the device listing; when the request
    is denied, the local stream and the device lists stay as they were. *)
Theorem handleNameSubmit_reaches_lobby env gum devices w :
  blank (userName env) = false ->
  step (appState (handleNameSubmit env gum devices w)) = StLobby /\
  (gum = None ->
     localStream (appState (handleNameSubmit env gum devices w)) = localStream (appState w) /\
     audioDevices (appState (handleNameSubmit env gum devices w)) = audioDevices (appState w) /\
     videoDevices (appState (handleNameSubmit env gum devices w)) = videoDevices (appState w)).
Proof.
  intros Hb. unfold handleNameSubmit. rewrite Hb.
  destruct (refreshDevices env true gum devices w) as [[] st wr m l fr u me] eqn:E.
  split; [reflexivity|]. intros ->.
  unfold refreshDevices in E. cbn in E. injection E as <- <- <- <- <- <- <- <-.
  destruct w as [[] st wr m l fr u me]. cbn. repeat split.
Qed.

Lemma handleNameSubmit_reaches_lobby_witness :
  blank (userName lobby_x) = false /\
  step (appState (handleNameSubmit lobby_x None None world_x)) = StLobby.
Proof.
  assert (H : blank (userName lobby_x) = false) by reflexivity.
  split; [exact H|]. exact (proj1 (handleNameSubmit_reaches_lobby _ None None world_x H)).
Defined.

(** *** The AI speaking indicator *)

(** The speaking callback only writes for a host render with a meeting; the
    one installed on the [LiveClient] closes over the first render (a guest
    without meeting), so it never writes the AI's [isSpeaking]. *)
Theorem speaking_callback_never_writes env speaking w :
  localRole env <> Host \/ meetingId env = "" ->
  onSpeakingStateChange env speaking w = w /\
  onSpeakingStateChange app_mount speaking w = w.
Proof.
  intros H. split; [|reflexivity]. unfold onSpeakingStateChange.
  destruct H as [H|H].
  - destruct (localRole env); [contradiction|reflexivity|reflexivity].
  - rewrite H. cbn. rewrite andb_false_r. reflexivity.
Qed.

Lemma speaking_callback_never_writes_witness :
  localRole app_mount <> Host /\ onSpeakingStateChange app_mount true world_x = world_x.
Proof.
  assert (H : localRole app_mount <> Host) by discriminate.
  split; [exact H|]. exact (proj1 (speaking_callback_never_writes _ true world_x (or_introl H))).
Defined.

End ClientMore.
